(** * Follow-the-money: the debt ledger engine

    A shallow embedding of the ledger core of the shared-expense tracker:
    the split calculator of the Expense model, the Debt model (partial
    payments, reminders, netting of mutual debts, the save hook), the
    balance-sheet debt calculator and the handlers that call it.

    Conventions of the embedding.
    - Numbers.  A JavaScript [Number] is an IEEE 754 double.  Where the
      code compares money against a threshold (the split calculator, the
      partial payments, the netting of mutual debts) it is embedded over the
      doubles of module [Binary64], in module [Double]: there 0.3 - 0.1 is
      less than 0.2 and [Math.round(2.01 / 2 * 100)] is 100.  Sums,
      partitions, counts and bounds are stated over exact rationals [Q],
      with equality [==]; [NaN] (the value of [undefined + x]) is [None]
      where the code can produce it.
    - A [Date] is a number of milliseconds [Z]; an operation that reads the
      clock receives the reading as [now].
    - A collection is the list of its documents in natural order; a missing
      (undefined) field is [None].
    - The object mapper.  [save] validates a document against its schema
      and rejects an invalid one before the save hook runs; nothing is
      stored then, and the document in memory keeps what the method had
      assigned.  A path that the schema does not have is not written
      through a model (strict mode) and cannot be populated; an update by
      identifier ([findByIdAndUpdate]) is not validated.  The fields of a
      document that a record leaves out are at valid values.
    - A method that mutates [this] and may throw is a function from the
      receiver to the receiver after the call and a completion. *)

From Stdlib Require Import ZArith QArith Qround Qabs Qminmax Lqa Lia String.
From Stdlib Require Import SpecFloat.
From stdpp Require Import base option list gmap.

Local Open Scope Q_scope.

(** ** Numbers in exact arithmetic, completions, methods *)

Module JS.

(** [Math.round]: the nearest integer, a tie going up. *)
Definition Math_round (x : Q) : Z := Qfloor (x + (1 # 2)).

(** [Math.round(x * 100) / 100], the idiom for two decimals, on an exact
    product; on doubles it is [Binary64.round2]. *)
Definition round2 (x : Q) : Q := inject_Z (Math_round (x * 100)) / 100.

Definition Math_abs (x : Q) : Q := Qabs x.
Definition Math_max (x y : Q) : Q := Qmax x y.
Definition Math_min (x y : Q) : Q := Qmin x y.

(** The comparison operators, as booleans. *)
Definition leb (x y : Q) : bool := Qle_bool x y.
Definition ltb (x y : Q) : bool := negb (Qle_bool y x).
Definition gtb (x y : Q) : bool := ltb y x.

(** [xs.reduce((sum, x) => sum + f(x), 0)] *)
Definition sumBy {A} (f : A -> Q) (xs : list A) : Q :=
  fold_left (fun sum x => sum + f x) xs 0.

(** What a call leaves behind: a value, or a thrown [Error]. *)
Inductive Completion (A : Type) : Type :=
| Return (a : A)
| Throw (message : string).
Arguments Return {A} a.
Arguments Throw {A} message.

(** A method on a receiver of type [S]. *)
Definition Method (S A : Type) : Type := S -> S * Completion A.

Definition ret {S A} (a : A) : Method S A := fun this => (this, Return a).
Definition throw {S A} (message : string) : Method S A :=
  fun this => (this, Throw message).
Definition bind {S A B} (m : Method S A) (k : A -> Method S B) : Method S B :=
  fun this =>
    match m this with
    | (this', Return a) => k a this'
    | (this', Throw e) => (this', Throw e)
    end.
Definition get {S} : Method S S := fun this => (this, Return this).
Definition modify {S} (f : S -> S) : Method S unit :=
  fun this => (f this, Return tt).
Definition when {S} (b : bool) (m : Method S unit) : Method S unit :=
  if b then m else ret tt.

Definition throws {S A} (m : Method S A) (this : S) : Prop :=
  exists e, snd (m this) = Throw e.
Definition returns {S A} (m : Method S A) (this : S) : Prop :=
  exists a, snd (m this) = Return a.

End JS.

Import JS.

Notation "x <- m ;; k" := (bind m (fun x => k))
  (at level 100, m at next level, right associativity).
Notation "m ;;; k" := (bind m (fun _ => k))
  (at level 100, right associativity).

(** Identifiers ([ObjectId]) and dates. *)
Abbreviation ObjectId := nat.
Abbreviation Date := Z.

(** The error of [save] on a document that fails the validators of its
    schema, and the error of [populate] on a path that the schema does not
    have. *)
Definition ValidationError (model : string) : string :=
  (model ++ " validation failed")%string.
Definition StrictPopulateError : string :=
  "Cannot populate path `splitDetails.user` because it is not in your schema".

(** ** IEEE 754 doubles *)

Module Binary64.

(** A double: 53 bits of precision, results rounded to the nearest double,
    a tie to the even one. *)
Definition number : Type := spec_float.
Definition prec : Z := 53.
Definition emax : Z := 1024.

Definition add (x y : number) : number := SFadd prec emax x y.
Definition sub (x y : number) : number := SFsub prec emax x y.
Definition mul (x y : number) : number := SFmul prec emax x y.
Definition div (x y : number) : number := SFdiv prec emax x y.

(** The comparison operators; a comparison with [NaN] is false. *)
Definition ltb (x y : number) : bool := SFltb x y.
Definition leb (x y : number) : bool := SFleb x y.
Definition gtb (x y : number) : bool := SFltb y x.
Definition eqb (x y : number) : bool := SFeqb x y.

Definition NaN : number := S754_nan.
Definition isNaN (x : number) : bool :=
  match x with
  | S754_nan => true
  | _ => false
  end.

Definition zero : number := S754_zero false.

(** An integer below 2^53 as a double. *)
Definition ofZ (n : Z) : number := binary_normalize prec emax n 0 false.
Definition ofNat (n : nat) : number := ofZ (Z.of_nat n).

(** A decimal literal: the double nearest to the rational [q], whose
    numerator and denominator are below 2^53. *)
Definition lit (q : Q) : number := div (ofZ (Qnum q)) (ofZ (Zpos (Qden q))).

Definition Math_abs (x : number) : number := SFabs x.

(** [Math.max]: [NaN] if an argument is, else the larger one, [+0] above
    [-0]. *)
Definition Math_max (x y : number) : number :=
  if isNaN x || isNaN y then NaN
  else if ltb x y then y
  else if ltb y x then x
  else match x with
       | S754_zero true => y
       | _ => x
       end.

(** [Math.round]: the nearest integer, a tie going up; computed on the
    exact value [m * 2^e] of the double. *)
Definition Math_round (x : number) : number :=
  match x with
  | S754_finite s m (Zneg k) =>
      let n := ((2 * cond_Zopp s (Zpos m) + 2 ^ Zpos k) / 2 ^ (Zpos k + 1))%Z in
      binary_normalize prec emax n 0 s
  | _ => x
  end.

(** [Math.round(x * 100) / 100], the idiom for two decimals. *)
Definition round2 (x : number) : number :=
  div (Math_round (mul x (lit 100))) (lit 100).

(** [xs.reduce((sum, x) => sum + f(x), 0)] *)
Definition sumBy {A} (f : A -> number) (xs : list A) : number :=
  fold_left (fun sum x => add sum (f x)) xs zero.

End Binary64.

(** ** models/Expense.js *)

(** The documents with exact amounts, for sums and shares; the split
    calculator and the save hook, which compare against a cent, are in
    [Double.Expense]. *)
Module Expense.

Inductive SplitMethod := equal | custom | percentage.

Record Split := mkSplit {
  split_user : ObjectId;
  split_amount : Q;
  split_percentage : Q;
  split_isPaid : bool;
  split_paidAt : option Date
}.

Record t := mk {
  _id : ObjectId;
  amount : Q;
  paidBy : ObjectId;
  group : ObjectId;
  splits : list Split;
  splitMethod : SplitMethod;
  isActive : bool;
  isSettled : bool
}.

(** The [userId.toString() === this.paidBy.toString()] test. *)
Definition sameId (a b : ObjectId) : bool := bool_decide (a = b).

(** The sum of the split amounts of an expense. *)
Definition totalSplitAmount (e : t) : Q := sumBy split_amount (splits e).

End Expense.

(** ** models/Debt.js *)

(** The documents with exact amounts, for dates, reminders, summaries and
    the calculator; partial payments and the netting of mutual debts, which
    compare against a cent, are in [Double.Debt]. *)
Module Debt.

(** The [status] that utils/debtCalculator.js and the debt handlers
    read and write on the documents of this collection.  It is not a path
    of [debtSchema]: only a document written past the model carries it. *)
Inductive Status := pending | settled.

#[global] Instance Status_eq_dec : EqDecision Status.
Proof. solve_decision. Defined.

Record Payment := mkPayment {
  pay_amount : Q;
  pay_note : string;
  pay_confirmedBy : option ObjectId;
  pay_paidAt : Date
}.

Record t := mk {
  debtor : ObjectId;
  creditor : ObjectId;
  expense : option ObjectId;
  group : ObjectId;
  amount : Q;
  originalAmount : option Q;
  isPaid : bool;
  paidAt : option Date;
  partialPayments : list Payment;
  reminderCount : nat;
  lastReminderSent : option Date;
  nextReminderDate : option Date;
  isActive : bool;
  dueDate : option Date;
  notes : string;
  status : option Status;
  (** the document has not been stored yet *)
  isNew : bool
}.

(** Assignments to the fields of a document. *)
Definition set_paid (now : Date) (d : t) : t :=
  mk (debtor d) (creditor d) (expense d) (group d) (amount d) (originalAmount d)
     true (Some now) (partialPayments d) (reminderCount d)
     (lastReminderSent d) (nextReminderDate d) (isActive d) (dueDate d)
     (notes d) (status d) (isNew d).

Definition push_payment (p : Payment) (d : t) : t :=
  mk (debtor d) (creditor d) (expense d) (group d) (amount d) (originalAmount d)
     (isPaid d) (paidAt d) (partialPayments d ++ [p]) (reminderCount d)
     (lastReminderSent d) (nextReminderDate d) (isActive d) (dueDate d)
     (notes d) (status d) (isNew d).

Definition set_nextReminderDate (x : Date) (d : t) : t :=
  mk (debtor d) (creditor d) (expense d) (group d) (amount d) (originalAmount d)
     (isPaid d) (paidAt d) (partialPayments d) (reminderCount d)
     (lastReminderSent d) (Some x) (isActive d) (dueDate d)
     (notes d) (status d) (isNew d).

Definition set_dueDate (x : Date) (d : t) : t :=
  mk (debtor d) (creditor d) (expense d) (group d) (amount d) (originalAmount d)
     (isPaid d) (paidAt d) (partialPayments d) (reminderCount d)
     (lastReminderSent d) (nextReminderDate d) (isActive d) (Some x)
     (notes d) (status d) (isNew d).

Definition set_reminded (now : Date) (d : t) : t :=
  mk (debtor d) (creditor d) (expense d) (group d) (amount d) (originalAmount d)
     (isPaid d) (paidAt d) (partialPayments d) (S (reminderCount d))
     (Some now) (nextReminderDate d) (isActive d) (dueDate d)
     (notes d) (status d) (isNew d).

Definition set_isNew (b : bool) (d : t) : t :=
  mk (debtor d) (creditor d) (expense d) (group d) (amount d) (originalAmount d)
     (isPaid d) (paidAt d) (partialPayments d) (reminderCount d)
     (lastReminderSent d) (nextReminderDate d) (isActive d) (dueDate d)
     (notes d) (status d) b.

(** Virtual [totalPaid]. *)
Definition totalPaid (this : t) : Q := sumBy pay_amount (partialPayments this).

(** Virtual [remainingAmount]. *)
Definition remainingAmount (this : t) : Q :=
  Math_max 0 (amount this - sumBy pay_amount (partialPayments this)).

(** Method [calculateNextReminder]: 24 hours after the clock reading. *)
Definition calculateNextReminder (now : Date) (this : t) : t :=
  let hours := 24%Z in
  set_nextReminderDate (now + hours * 60 * 60 * 1000)%Z this.

(** The [pre("save")] middleware. *)
Definition pre_save (now : Date) (this : t) : t :=
  let this1 :=
    if isNew this && negb (bool_decide (is_Some (dueDate this)))
    then set_dueDate (now + 7 * 24 * 60 * 60 * 1000)%Z this
    else this in
  if isNew this1 && negb (bool_decide (is_Some (nextReminderDate this1)))
  then calculateNextReminder now this1
  else this1.

(** The validators of [debtSchema] on the fields of the record:
    [expense] and [originalAmount] are required, [amount] is at least 0.01,
    a payment is at least 0 and its note has at most 200 characters, [notes]
    has at most 500 characters. *)
Definition payment_valid (p : Payment) : bool :=
  leb 0 (pay_amount p) && (String.length (pay_note p) <=? 200)%nat.

Definition valid (this : t) : bool :=
  bool_decide (is_Some (expense this))
  && bool_decide (is_Some (originalAmount this))
  && leb (1 # 100) (amount this)
  && forallb payment_valid (partialPayments this)
  && (String.length (notes this) <=? 500)%nat.

(** [this.save()]: a valid document goes through the middleware, is
    stored and is no longer new; an invalid one is rejected. *)
Definition save (now : Date) : Method t unit :=
  this <- get;;
  if valid this
  then modify (fun this => set_isNew false (pre_save now this))
  else throw (ValidationError "Debt").

(** Method [sendReminder]. *)
Definition sendReminder (now : Date) : Method t unit :=
  modify (set_reminded now);;;
  modify (calculateNextReminder now);;;
  save now.

(** The filter of [findNeedingReminders]:
    [{ isPaid: false, isActive: true,
       $or: [{ nextReminderDate: { $lte: now } },
             { nextReminderDate: { $exists: false } }] }]. *)
Definition needsReminder (now : Date) (d : t) : Prop :=
  isPaid d = false /\ isActive d = true /\
  match nextReminderDate d with
  | Some next => (next <= now)%Z
  | None => True
  end.

#[global] Instance needsReminder_dec now d : Decision (needsReminder now d).
Proof. unfold needsReminder. destruct (nextReminderDate d); apply _. Defined.

(** Static [findNeedingReminders]; the clock is read once. *)
Definition findNeedingReminders (now : Date) (coll : list t) : list t :=
  filter (needsReminder now) coll.

(** Virtual [isOverdue]. *)
Definition isOverdue (now : Date) (this : t) : bool :=
  match dueDate this with
  | Some due => bool_decide (due < now)%Z && negb (isPaid this)
  | None => false
  end.

End Debt.

(** ** models/Group.js, as the calculator and the handlers read it *)

Module Group.

(** [members] holds, for each member sub-document, the identifier that
    [member._id.toString()] yields: the identifier of the sub-document, not
    that of the user. *)
Record t := mk {
  _id : ObjectId;
  members : list ObjectId
}.

(** [group.members.includes(id)] with a string [id]: the elements are
    sub-documents, and a sub-document is not a string, whatever its
    identifier. *)
Definition includes (members : list ObjectId) (id : ObjectId) : bool :=
  existsb (fun member => false) members.

End Group.

(** ** The stored collections *)

Record Store := mkStore {
  expenses : list Expense.t;
  groups : list Group.t;
  debts : list Debt.t
}.

(** ** utils/debtCalculator.js *)

Module DebtCalculator.

(** A settlement [{ debtor, creditor, amount }]. *)
Record Transfer := mkTransfer {
  debtor : ObjectId;
  creditor : ObjectId;
  amount : Q
}.

(** The object [memberBalances]: its properties in insertion order (the
    order of [Object.entries]); [None] is [NaN]. *)
Definition Balances : Type := list (ObjectId * option Q).

(** [memberBalances[k] = x] *)
Fixpoint assign (k : ObjectId) (x : Q) (b : Balances) : Balances :=
  match b with
  | [] => [(k, Some x)]
  | (k', y) :: rest =>
      if decide (k = k') then (k', Some x) :: rest
      else (k', y) :: assign k x rest
  end.

(** [memberBalances[k] += x]; on a missing property
    [undefined + x] is [NaN]. *)
Fixpoint increase (k : ObjectId) (x : Q) (b : Balances) : Balances :=
  match b with
  | [] => [(k, None)]
  | (k', y) :: rest =>
      if decide (k = k') then (k', (fun v => v + x) <$> y) :: rest
      else (k', y) :: increase k x rest
  end.

(** State of the matching loop of [calculateOptimalDebts]. *)
Record Matching := mkMatching {
  debtors : list (ObjectId * Q);
  creditors : list (ObjectId * Q);
  debtorIndex : nat;
  creditorIndex : nat;
  out : list Transfer
}.

(** The body of the [while] loop; [None] when its condition fails. *)
Definition matchStep (s : Matching) : option Matching :=
  match debtors s !! debtorIndex s, creditors s !! creditorIndex s with
  | Some debtor, Some creditor =>
      let settleAmount := Math_min (snd debtor) (snd creditor) in
      let debts' :=
        out s ++ [mkTransfer (fst debtor) (fst creditor) (round2 settleAmount)] in
      let debtorAmount := snd debtor - settleAmount in
      let creditorAmount := snd creditor - settleAmount in
      Some (mkMatching
              (<[debtorIndex s := (fst debtor, debtorAmount)]> (debtors s))
              (<[creditorIndex s := (fst creditor, creditorAmount)]> (creditors s))
              (if ltb debtorAmount (1 # 100) then S (debtorIndex s) else debtorIndex s)
              (if ltb creditorAmount (1 # 100) then S (creditorIndex s) else creditorIndex s)
              debts')
  | _, _ => None
  end.

Fixpoint matchLoop (fuel : nat) (s : Matching) : Matching :=
  match fuel with
  | O => s
  | S fuel' =>
      match matchStep s with
      | Some s' => matchLoop fuel' s'
      | None => s
      end
  end.

(** The entries of [balances] above 0.01. *)
Definition debtorsOf (balances : Balances) : list (ObjectId * Q) :=
  omap (fun e => match snd e with
                 | Some balance =>
                     if gtb balance (1 # 100) then Some (fst e, balance) else None
                 | None => None
                 end) balances.

(** The entries of [balances] below -0.01, with their magnitude. *)
Definition creditorsOf (balances : Balances) : list (ObjectId * Q) :=
  omap (fun e => match snd e with
                 | Some balance =>
                     if gtb balance (1 # 100) then None
                     else if ltb balance (- (1 # 100))
                          then Some (fst e, Math_abs balance) else None
                 | None => None
                 end) balances.

(** [calculateOptimalDebts(balances, members)].  A turn of the loop
    advances one of the two indices, so as many turns as there are
    entries suffice. *)
Definition calculateOptimalDebts (balances : Balances) (members : list ObjectId)
  : list Transfer :=
  let ds := debtorsOf balances in
  let cs := creditorsOf balances in
  out (matchLoop (length ds + length cs) (mkMatching ds cs 0 0 [])).

(** The balance sheet of [calculateDebts]: every member at 0, then the
    loop over the expenses.  A document of the Expense model has [splits]
    and no [splitDetails]: a turn of the loop credits the payer and then
    calls [forEach] on [undefined], which throws. *)
Definition memberBalances (members : list ObjectId) (expenses : list Expense.t)
  : Balances * Completion unit :=
  let init := fold_left (fun b member => assign member 0 b) members [] in
  match expenses with
  | [] => (init, Return tt)
  | expense :: _ =>
      (increase (Expense.paidBy expense) (Expense.amount expense) init,
       Throw "Cannot read properties of undefined (reading 'forEach')")
  end.

(** The filter [{ group: groupId, status: "pending" }]. *)
Definition pendingIn (groupId : ObjectId) (d : Debt.t) : Prop :=
  Debt.group d = groupId /\ Debt.status d = Some Debt.pending.

#[global] Instance pendingIn_dec groupId d : Decision (pendingIn groupId d).
Proof. unfold pendingIn. apply _. Defined.

(** [new Debt({ creditor, debtor, amount, group, status: "pending" })]:
    [status] is not a path of [debtSchema] and is dropped; [expense] and
    [originalAmount] are not given; the other fields are at their
    defaults. *)
Definition newDebt (groupId : ObjectId) (debt : Transfer) : Debt.t :=
  Debt.mk (debtor debt) (creditor debt) None groupId (amount debt) None
          false None [] 0 None None true None "" None true.

(** The documents that [Promise.all] of the saves has stored, and its
    completion: the first rejection, if there is one. *)
Definition stored (saves : list (Debt.t * Completion unit)) : list Debt.t :=
  omap (fun r => match snd r with
                 | Return _ => Some (fst r)
                 | Throw _ => None
                 end) saves.

Fixpoint firstRejection (saves : list (Debt.t * Completion unit))
  : option string :=
  match saves with
  | [] => None
  | (_, Throw e) :: _ => Some e
  | (_, Return _) :: rest => firstRejection rest
  end.

(** [calculateDebts(groupId)]: the stored collections afterwards and
    the returned settlements.  The query for the expenses populates
    [splitDetails.user], which is not a path of [expenseSchema]: with a
    document to populate it is rejected. *)
Definition calculateDebts (now : Date) (groupId : ObjectId) (st : Store)
  : Store * Completion (list Transfer) :=
  let expenses_g :=
    filter (fun e => Expense.group e = groupId) (expenses st) in
  if negb (bool_decide (expenses_g = []))
  then (st, Throw StrictPopulateError)
  else
    match list_find (fun g => Group._id g = groupId) (groups st) with
    | None => (st, Throw "Group not found")
    | Some (_, group) =>
        let members := Group.members group in
        match memberBalances members expenses_g with
        | (_, Throw e) => (st, Throw e)
        | (balances, Return _) =>
            (* Debt.deleteMany({ group: groupId, status: "pending" }) *)
            let kept := filter (fun d => ~ pendingIn groupId d) (debts st) in
            let debts' := calculateOptimalDebts balances members in
            let saves :=
              map (fun debt => Debt.save now (newDebt groupId debt)) debts' in
            let st' :=
              mkStore (expenses st) (groups st) (kept ++ stored saves) in
            match firstRejection saves with
            | Some e => (st', Throw e)
            | None => (st', Return debts')
            end
        end
    end.

(** [x || 0] on a number. *)
Definition orZero (x : Q) : Q := if Qeq_bool x 0 then 0 else x.

(** The [$match]/[$group] aggregation: total and count. *)
Definition aggregate (P : Debt.t -> Prop) `{forall d, Decision (P d)}
    (coll : list Debt.t) : Q * nat :=
  let matched := filter P coll in
  (orZero (sumBy Debt.amount matched), length matched).

Record Summary := mkSummary {
  owedToUser : Q * nat;
  userOwes : Q * nat;
  netBalance : Q
}.

(** [getUserDebtSummary(userId)] *)
Definition getUserDebtSummary (userId : ObjectId) (coll : list Debt.t) : Summary :=
  let owedToUser :=
    aggregate (fun d => Debt.creditor d = userId /\ Debt.status d = Some Debt.pending) coll in
  let userOwes :=
    aggregate (fun d => Debt.debtor d = userId /\ Debt.status d = Some Debt.pending) coll in
  mkSummary owedToUser userOwes (fst owedToUser - fst userOwes).

End DebtCalculator.

(** ** controllers/expenseController.js *)

Module ExpenseController.

Record Response := mkResponse {
  code : nat;
  success : bool;
  message : string
}.

(** [deleteExpense(req, res)] with [req.params.id] and [req.user.id]. *)
Definition deleteExpense (now : Date) (id user : ObjectId) (st : Store)
  : Store * Response :=
  match list_find (fun e => Expense._id e = id) (expenses st) with
  | None => (st, mkResponse 404 false "Expense not found")
  | Some (i, expense) =>
      if negb (bool_decide (Expense.paidBy expense = user))
      then (st, mkResponse 403 false "Access denied")
      else
        let groupId := Expense.group expense in
        (* Expense.findByIdAndDelete *)
        let st1 := mkStore (delete i (expenses st)) (groups st) (debts st) in
        match DebtCalculator.calculateDebts now groupId st1 with
        | (st2, Return _) => (st2, mkResponse 200 true "Expense deleted successfully")
        | (st2, Throw _) => (st2, mkResponse 500 false "Server error")
        end
  end.

End ExpenseController.

(** * Further code of the cited files *)

(** ** models/Debt.js: closing a debt, progress, days overdue *)

Module DebtSettlement.

(** A debt document with the two settlement fields that [markAsPaid]
    writes. *)
Record t := mk {
  doc : Debt.t;
  settlementMethod : string;
  settlementProofUrl : string
}.

Definition on_doc (f : Debt.t -> Debt.t) (this : t) : t :=
  mk (f (doc this)) (settlementMethod this) (settlementProofUrl this).

(** The values that the schema allows for [settlementMethod]. *)
Definition settlementMethods : list string :=
  ["cash"; "bank_transfer"; "promptpay"; "other"]%string.

Definition valid (this : t) : bool :=
  Debt.valid (doc this)
  && bool_decide (settlementMethod this ∈ settlementMethods).

(** [this.save()] on the document with its settlement fields. *)
Definition save (now : Date) : Method t unit :=
  this <- get;;
  if valid this
  then modify (on_doc (fun d => Debt.set_isNew false (Debt.pre_save now d)))
  else throw (ValidationError "Debt").

(** Method [markAsPaid], on exact amounts; on doubles it is
    [Double.DebtSettlement.markAsPaid]. *)
Definition markAsPaid (now : Date) (settlementMethod settlementProofUrl : string)
  : Method t unit :=
  modify (fun this => mk (Debt.set_paid now (doc this))
                         settlementMethod settlementProofUrl);;;
  this <- get;;
  let remaining := Debt.remainingAmount (doc this) in
  when (gtb remaining 0)
       (modify (on_doc (Debt.push_payment
                          (Debt.mkPayment remaining "Final payment" None now))));;;
  save now.

(** Virtual [paymentProgress]; [None] is [NaN] (no [originalAmount]). *)
Definition paymentProgress (this : Debt.t) : option Z :=
  match Debt.originalAmount this with
  | Some original =>
      if Qeq_bool original 0 then Some 100%Z
      else Some (Math_round (Debt.totalPaid this / original * 100))
  | None => None
  end.

(** Virtual [daysOverdue]: [Math.ceil(diffTime / (1000 * 60 * 60 * 24))]. *)
Definition daysOverdue (now : Date) (this : Debt.t) : Z :=
  if negb (Debt.isOverdue now this) then 0%Z
  else
    match Debt.dueDate this with
    | Some due =>
        let diffTime := (now - due)%Z in
        Qceiling (inject_Z diffTime / inject_Z (1000 * 60 * 60 * 24))
    | None => 0%Z
    end.

End DebtSettlement.

(** ** models/Expense.js: shares, settlement, validation *)

Module ExpenseShares.


(** Virtual [remainingDebt]. *)
Definition remainingDebt (this : Expense.t) : Q :=
  sumBy Expense.split_amount
    (filter (fun split => Expense.split_isPaid split = false
                          /\ Expense.split_user split <> Expense.paidBy this)
            (Expense.splits this)).



(** Method [isUserInvolved]. *)
Definition isUserInvolved (this : Expense.t) (userId : ObjectId) : bool :=
  Expense.sameId (Expense.paidBy this) userId
  || existsb (fun split => Expense.sameId (Expense.split_user split) userId)
             (Expense.splits this).

(** Method [getUserSplitAmount]. *)
Definition getUserSplitAmount (this : Expense.t) (userId : ObjectId) : Q :=
  match list_find (fun split => Expense.split_user split = userId)
                  (Expense.splits this) with
  | Some (_, split) => Expense.split_amount split
  | None => 0
  end.

(** The [pre('save')] middleware: the splits must add up.  Here the test
    is made on exact amounts, and only the document that a call leaves in
    memory is used below; the test on doubles is [Double.Expense.pre_save]. *)
Definition pre_save : Method Expense.t unit :=
  this <- get;;
  if negb (bool_decide (Expense.splits this = []))
     && gtb (Math_abs (Expense.totalSplitAmount this - Expense.amount this))
            (1 # 100)
  then throw "Split amounts must equal the total expense amount"
  else ret tt.

(** An expense document with its [settledAt]. *)
Record t := mk {
  doc : Expense.t;
  settledAt : option Date
}.

(** [this.save()] *)
Definition save : Method t unit :=
  fun this =>
    (mk (fst (pre_save (doc this))) (settledAt this), snd (pre_save (doc this))).

(** [split.isPaid = true; split.paidAt = new Date()] *)
Definition paySplit (now : Date) (split : Expense.Split) : Expense.Split :=
  Expense.mkSplit (Expense.split_user split) (Expense.split_amount split)
                  (Expense.split_percentage split) true (Some now).

(** The test [allPaid] of [markSplitAsPaid]. *)
Definition allPaid (paidBy : ObjectId) (splits : list Expense.Split) : bool :=
  forallb (fun split => Expense.split_isPaid split
                        || Expense.sameId (Expense.split_user split) paidBy)
          splits.

(** Method [markSplitAsPaid]. *)
Definition markSplitAsPaid (now : Date) (userId : ObjectId) : Method t unit :=
  this <- get;;
  let e := doc this in
  match list_find (fun split => Expense.split_user split = userId)
                  (Expense.splits e) with
  | Some (i, split) =>
      if Expense.split_isPaid split then ret tt
      else
        let splits' := <[i := paySplit now split]> (Expense.splits e) in
        let settled := allPaid (Expense.paidBy e) splits' in
        modify (fun _ =>
          mk (Expense.mk (Expense._id e) (Expense.amount e) (Expense.paidBy e)
                (Expense.group e) splits' (Expense.splitMethod e)
                (Expense.isActive e)
                (if settled then true else Expense.isSettled e))
             (if settled then Some now else settledAt this))
  | None => ret tt
  end;;;
  save.

End ExpenseShares.

(** ** utils/debtCalculator.js and controllers/debtController.js *)

Module DebtReports.



(** [calculateGroupDebts(req, res)] with [req.params.groupId] and
    [req.user.id]: the stored collections afterwards, the answer and its
    [data]. *)
Definition calculateGroupDebts (now : Date) (groupId user : ObjectId) (st : Store)
  : Store * (ExpenseController.Response * list Debt.t) :=
  match list_find (fun g => Group._id g = groupId) (groups st) with
  | None => (st, (ExpenseController.mkResponse 404 false "Group not found", []))
  | Some (_, group) =>
      if negb (Group.includes (Group.members group) user)
      then (st, (ExpenseController.mkResponse 403 false "Access denied", []))
      else
        match DebtCalculator.calculateDebts now groupId st with
        | (st', Return _) =>
            (st', (ExpenseController.mkResponse 200 true
                     "Debts calculated successfully",
                   filter (DebtCalculator.pendingIn groupId) (debts st')))
        | (st', Throw _) =>
            (st', (ExpenseController.mkResponse 500 false "Server error", []))
        end
  end.

End DebtReports.

(** ** models/Group.js *)

Module GroupModel.

Inductive Role := admin | member.

#[global] Instance Role_eq_dec : EqDecision Role.
Proof. solve_decision. Defined.

Record Member := mkMember {
  user : ObjectId;
  role : Role;
  joinedAt : Date;
  isActive : bool
}.

Record t := mk {
  members : list Member;
  createdBy : ObjectId
}.

Definition set_members (ms : list Member) (this : t) : t :=
  mk ms (createdBy this).

(** Virtual [admins]. *)
Definition admins (this : t) : list Member :=
  filter (fun m => role m = admin /\ isActive m = true) (members this).

(** Virtual [regularMembers]. *)
Definition regularMembers (this : t) : list Member :=
  filter (fun m => role m = member /\ isActive m = true) (members this).

(** Virtual [activeMembersCount]. *)
Definition activeMembersCount (this : t) : nat :=
  length (filter (fun m => isActive m = true) (members this)).

(** Method [isMember]. *)
Definition isMember (this : t) (userId : ObjectId) : bool :=
  existsb (fun m => bool_decide (user m = userId) && isActive m) (members this).

(** Method [isAdmin]. *)
Definition isAdmin (this : t) (userId : ObjectId) : bool :=
  existsb (fun m => bool_decide (user m = userId)
                    && bool_decide (role m = admin) && isActive m)
          (members this).

(** The [pre('save')] middleware: at least one active admin. *)
Definition pre_save : Method t unit :=
  this <- get;;
  if bool_decide (length (admins this) = 0%nat)
  then throw "Group must have at least one admin"
  else ret tt.

(** Method [addMember]. *)
Definition addMember (now : Date) (userId : ObjectId) (role : Role)
  : Method t unit :=
  this <- get;;
  match list_find (fun m => user m = userId) (members this) with
  | Some (i, existingMember) =>
      when (negb (isActive existingMember))
           (modify (set_members
              (<[i := mkMember (user existingMember) (GroupModel.role existingMember)
                               now true]> (members this))));;;
      pre_save
  | None =>
      modify (set_members (members this ++ [mkMember userId role now true]));;;
      pre_save
  end.

(** Method [removeMember]. *)
Definition removeMember (userId : ObjectId) : Method t unit :=
  this <- get;;
  match list_find (fun m => user m = userId) (members this) with
  | Some (i, found) =>
      modify (set_members
        (<[i := mkMember (user found) (role found) (joinedAt found) false]>
           (members this)))
  | None => ret tt
  end;;;
  pre_save.

End GroupModel.

(** * The money paths on doubles *)

Module Double.

Import Binary64.

(** ** models/Expense.js: the split calculator and the save hook *)

Module Expense.

Inductive SplitMethod := equal | custom | percentage.

Record Split := mkSplit {
  split_user : ObjectId;
  split_amount : number;
  split_percentage : number;
  split_isPaid : bool;
  split_paidAt : option Date
}.

Record t := mk {
  _id : ObjectId;
  amount : number;
  paidBy : ObjectId;
  group : ObjectId;
  splits : list Split;
  splitMethod : SplitMethod;
  isActive : bool;
  isSettled : bool
}.

Definition set_splits (ss : list Split) (m : SplitMethod) (e : t) : t :=
  mk (_id e) (amount e) (paidBy e) (group e) ss m (isActive e) (isSettled e).

(** The [userId.toString() === this.paidBy.toString()] test. *)
Definition sameId (a b : ObjectId) : bool := bool_decide (a = b).

(** Method [calculateEqualSplits]. *)
Definition calculateEqualSplits (userIds : list ObjectId) : Method t unit :=
  this <- get;;
  let n := ofNat (length userIds) in
  let splitAmount := div (amount this) n in
  modify (set_splits
    (map (fun userId =>
            mkSplit userId
                    (round2 splitAmount)
                    (round2 (div (lit 100) n))
                    (sameId userId (paidBy this))
                    None) userIds)
    equal).

(** Method [calculateCustomSplits]; an entry of [customSplits] is
    [{ userId, amount }]. *)
Definition calculateCustomSplits (customSplits : list (ObjectId * number))
  : Method t unit :=
  this <- get;;
  let totalSplit := sumBy snd customSplits in
  if gtb (Math_abs (sub totalSplit (amount this))) (lit 0.01)
  then throw "Custom split amounts must equal the total expense amount"
  else
    modify (set_splits
      (map (fun split =>
              mkSplit (fst split)
                      (snd split)
                      (div (Math_round (mul (div (snd split) (amount this))
                                            (lit 10000)))
                           (lit 100))
                      (sameId (fst split) (paidBy this))
                      None) customSplits)
      custom).

(** Method [calculatePercentageSplits]; an entry of [percentageSplits] is
    [{ userId, percentage }]. *)
Definition calculatePercentageSplits (percentageSplits : list (ObjectId * number))
  : Method t unit :=
  this <- get;;
  let totalPercentage := sumBy snd percentageSplits in
  if gtb (Math_abs (sub totalPercentage (lit 100))) (lit 0.01)
  then throw "Percentage splits must total 100%"
  else
    modify (set_splits
      (map (fun split =>
              mkSplit (fst split)
                      (round2 (div (mul (amount this) (snd split)) (lit 100)))
                      (snd split)
                      (sameId (fst split) (paidBy this))
                      None) percentageSplits)
      percentage).

(** The sum of the split amounts of an expense. *)
Definition totalSplitAmount (e : t) : number := sumBy split_amount (splits e).

(** The validators of [expenseSchema] on the fields of the record: the
    amount is at least 0.01, a split amount at least 0, a split percentage
    between 0 and 100. *)
Definition split_valid (s : Split) : bool :=
  leb zero (split_amount s)
  && leb zero (split_percentage s) && leb (split_percentage s) (lit 100).

Definition valid (this : t) : bool :=
  leb (lit 0.01) (amount this) && forallb split_valid (splits this).

(** The [pre('save')] middleware: the splits must add up. *)
Definition pre_save : Method t unit :=
  this <- get;;
  if negb (bool_decide (splits this = []))
     && gtb (Math_abs (sub (totalSplitAmount this) (amount this))) (lit 0.01)
  then throw "Split amounts must equal the total expense amount"
  else ret tt.

(** [this.save()]: the validators, then the middleware. *)
Definition save : Method t unit :=
  this <- get;;
  if valid this then pre_save else throw (ValidationError "Expense").

End Expense.

(** ** models/Debt.js: partial payments and the netting of mutual debts *)

Module Debt.

Record Payment := mkPayment {
  pay_amount : number;
  pay_note : string;
  pay_confirmedBy : option ObjectId;
  pay_paidAt : Date
}.

Record t := mk {
  debtor : ObjectId;
  creditor : ObjectId;
  expense : option ObjectId;
  group : ObjectId;
  amount : number;
  originalAmount : option number;
  isPaid : bool;
  paidAt : option Date;
  partialPayments : list Payment;
  reminderCount : nat;
  lastReminderSent : option Date;
  nextReminderDate : option Date;
  isActive : bool;
  dueDate : option Date;
  notes : string;
  (** the document has not been stored yet *)
  isNew : bool
}.

(** Assignments to the fields of a document. *)
Definition set_amount (x : number) (d : t) : t :=
  mk (debtor d) (creditor d) (expense d) (group d) x (originalAmount d)
     (isPaid d) (paidAt d) (partialPayments d) (reminderCount d)
     (lastReminderSent d) (nextReminderDate d) (isActive d) (dueDate d)
     (notes d) (isNew d).

Definition set_paid (now : Date) (d : t) : t :=
  mk (debtor d) (creditor d) (expense d) (group d) (amount d) (originalAmount d)
     true (Some now) (partialPayments d) (reminderCount d)
     (lastReminderSent d) (nextReminderDate d) (isActive d) (dueDate d)
     (notes d) (isNew d).

Definition set_notes (s : string) (d : t) : t :=
  mk (debtor d) (creditor d) (expense d) (group d) (amount d) (originalAmount d)
     (isPaid d) (paidAt d) (partialPayments d) (reminderCount d)
     (lastReminderSent d) (nextReminderDate d) (isActive d) (dueDate d)
     s (isNew d).

Definition push_payment (p : Payment) (d : t) : t :=
  mk (debtor d) (creditor d) (expense d) (group d) (amount d) (originalAmount d)
     (isPaid d) (paidAt d) (partialPayments d ++ [p]) (reminderCount d)
     (lastReminderSent d) (nextReminderDate d) (isActive d) (dueDate d)
     (notes d) (isNew d).

Definition set_nextReminderDate (x : Date) (d : t) : t :=
  mk (debtor d) (creditor d) (expense d) (group d) (amount d) (originalAmount d)
     (isPaid d) (paidAt d) (partialPayments d) (reminderCount d)
     (lastReminderSent d) (Some x) (isActive d) (dueDate d)
     (notes d) (isNew d).

Definition set_dueDate (x : Date) (d : t) : t :=
  mk (debtor d) (creditor d) (expense d) (group d) (amount d) (originalAmount d)
     (isPaid d) (paidAt d) (partialPayments d) (reminderCount d)
     (lastReminderSent d) (nextReminderDate d) (isActive d) (Some x)
     (notes d) (isNew d).

Definition set_isNew (b : bool) (d : t) : t :=
  mk (debtor d) (creditor d) (expense d) (group d) (amount d) (originalAmount d)
     (isPaid d) (paidAt d) (partialPayments d) (reminderCount d)
     (lastReminderSent d) (nextReminderDate d) (isActive d) (dueDate d)
     (notes d) b.

(** Virtual [totalPaid]. *)
Definition totalPaid (this : t) : number :=
  sumBy pay_amount (partialPayments this).

(** Virtual [remainingAmount]. *)
Definition remainingAmount (this : t) : number :=
  Math_max zero (sub (amount this) (sumBy pay_amount (partialPayments this))).

(** Method [calculateNextReminder]: 24 hours after the clock reading. *)
Definition calculateNextReminder (now : Date) (this : t) : t :=
  let hours := 24%Z in
  set_nextReminderDate (now + hours * 60 * 60 * 1000)%Z this.

(** The [pre("save")] middleware. *)
Definition pre_save (now : Date) (this : t) : t :=
  let this1 :=
    if isNew this && negb (bool_decide (is_Some (dueDate this)))
    then set_dueDate (now + 7 * 24 * 60 * 60 * 1000)%Z this
    else this in
  if isNew this1 && negb (bool_decide (is_Some (nextReminderDate this1)))
  then calculateNextReminder now this1
  else this1.

(** The validators of [debtSchema] on the fields of the record:
    [expense] and [originalAmount] are required (and [NaN] is no number),
    [amount] is at least 0.01, a payment is at least 0 and its note has at
    most 200 characters, [notes] has at most 500 characters. *)
Definition payment_valid (p : Payment) : bool :=
  leb zero (pay_amount p) && (String.length (pay_note p) <=? 200)%nat.

Definition valid (this : t) : bool :=
  bool_decide (is_Some (expense this))
  && match originalAmount this with
     | Some original => negb (isNaN original)
     | None => false
     end
  && leb (lit 0.01) (amount this)
  && forallb payment_valid (partialPayments this)
  && (String.length (notes this) <=? 500)%nat.

(** [this.save()]: a valid document goes through the middleware, is
    stored and is no longer new; an invalid one is rejected. *)
Definition save (now : Date) : Method t unit :=
  this <- get;;
  if valid this
  then modify (fun this => set_isNew false (pre_save now this))
  else throw (ValidationError "Debt").

(** Method [addPartialPayment]. *)
Definition addPartialPayment (now : Date) (amount : number) (note : string)
    (confirmedBy : option ObjectId) : Method t unit :=
  if leb amount zero
  then throw "Payment amount must be greater than 0"
  else
    this <- get;;
    if gtb amount (remainingAmount this)
    then throw "Payment amount cannot exceed remaining debt"
    else
      modify (push_payment (mkPayment amount note confirmedBy now));;;
      this <- get;;
      when (leb (remainingAmount this) (lit 0.01)) (modify (set_paid now));;;
      save now.

(** The filter [{ group: groupId, isPaid: false, isActive: true }]. *)
Definition unpaidIn (groupId : ObjectId) (d : t) : Prop :=
  group d = groupId /\ isPaid d = false /\ isActive d = true.

#[global] Instance unpaidIn_dec groupId d : Decision (unpaidIn groupId d).
Proof. unfold unpaidIn. apply _. Defined.

(** [find(query)]: the matching documents, each with its place in the
    collection, which stands for its [_id]. *)
Fixpoint find_from (P : t -> Prop) `{forall d, Decision (P d)}
    (n : nat) (coll : list t) : list (nat * t) :=
  match coll with
  | [] => []
  | d :: rest =>
      if decide (P d) then (n, d) :: find_from P (S n) rest
      else find_from P (S n) rest
  end.

(** The key [`${a}-${b}`] of the map of mutual debts.  An [ObjectId]
    prints as 24 hexadecimal digits, so the key determines the pair. *)
Definition key (a b : ObjectId) : ObjectId * ObjectId := (a, b).

(** The assignments [isPaid = true; paidAt = new Date(); notes = note]. *)
Definition netOff (now : Date) (note : string) (d : t) : t :=
  set_notes note (set_paid now d).

(** The state of a run of [optimizeDebts]: the map of mutual debts and the
    stored collection. *)
Definition Netting : Type := gmap (ObjectId * ObjectId) (nat * t) * list t.

(** [debt.save()] on a loaded document [cur] after the assignments
    [assign]: the document is validated; a valid one is written.  A loaded
    document is not new, so the save hook leaves it as it is. *)
Definition saveLoaded (cur : nat * t) (assign : t -> t) : Method Netting unit :=
  if valid (assign (snd cur))
  then modify (fun st => (fst st, alter assign (fst cur) (snd st)))
  else throw (ValidationError "Debt").

(** [this.findByIdAndUpdate(id, update)]: written without validation. *)
Definition findByIdAndUpdate (id : nat) (update : t -> t) : Method Netting unit :=
  modify (fun st => (fst st, alter update id (snd st))).

(** One turn of the [for] loop of [optimizeDebts]. *)
Definition optimizeStep (now : Date) (cur : nat * t) : Method Netting unit :=
  st <- get;;
  let debtMap := fst st in
  let debt := snd cur in
  let key1 := key (debtor debt) (creditor debt) in
  let key2 := key (creditor debt) (debtor debt) in
  match debtMap !! key2 with
  | Some mutual =>
      let mutualDebt := snd mutual in
      let netAmount := sub (amount debt) (amount mutualDebt) in
      (if gtb netAmount zero then
         (saveLoaded cur (set_amount netAmount);;;
          findByIdAndUpdate (fst mutual)
            (netOff now "Netted off with mutual debt"))
       else if ltb netAmount zero then
         (findByIdAndUpdate (fst mutual) (set_amount (Math_abs netAmount));;;
          saveLoaded cur (netOff now "Netted off with mutual debt"))
       else
         (saveLoaded cur (netOff now "Netted off with equal mutual debt");;;
          findByIdAndUpdate (fst mutual)
            (netOff now "Netted off with equal mutual debt")));;;
      modify (fun st => (delete key2 (fst st), snd st))
  | None => modify (fun st => (<[key1 := cur]> (fst st), snd st))
  end.

(** The [for] loop: a turn that throws ends the run. *)
Fixpoint forEach {S A} (body : A -> Method S unit) (xs : list A)
  : Method S unit :=
  match xs with
  | [] => ret tt
  | x :: rest => body x;;; forEach body rest
  end.

(** Static [optimizeDebts]: the collection after the run and the
    completion of the run. *)
Definition optimizeDebts (now : Date) (groupId : ObjectId) (coll : list t)
  : list t * Completion bool :=
  let debts := find_from (unpaidIn groupId) 0 coll in
  match forEach (optimizeStep now) debts (∅, coll) with
  | (st, Return _) => (snd st, Return true)
  | (st, Throw e) => (snd st, Throw e)
  end.

End Debt.

(** ** models/Debt.js: closing a debt *)

Module DebtSettlement.

(** A debt document with the two settlement fields that [markAsPaid]
    writes. *)
Record t := mk {
  doc : Debt.t;
  settlementMethod : string;
  settlementProofUrl : string
}.

Definition on_doc (f : Debt.t -> Debt.t) (this : t) : t :=
  mk (f (doc this)) (settlementMethod this) (settlementProofUrl this).

(** The values that the schema allows for [settlementMethod]. *)
Definition settlementMethods : list string :=
  ["cash"; "bank_transfer"; "promptpay"; "other"]%string.

Definition valid (this : t) : bool :=
  Debt.valid (doc this)
  && bool_decide (settlementMethod this ∈ settlementMethods).

(** [this.save()] on the document with its settlement fields. *)
Definition save (now : Date) : Method t unit :=
  this <- get;;
  if valid this
  then modify (on_doc (fun d => Debt.set_isNew false (Debt.pre_save now d)))
  else throw (ValidationError "Debt").

(** Method [markAsPaid]. *)
Definition markAsPaid (now : Date) (settlementMethod settlementProofUrl : string)
  : Method t unit :=
  modify (fun this => mk (Debt.set_paid now (doc this))
                         settlementMethod settlementProofUrl);;;
  this <- get;;
  let remaining := Debt.remainingAmount (doc this) in
  when (gtb remaining zero)
       (modify (on_doc (Debt.push_payment
                          (Debt.mkPayment remaining "Final payment" None now))));;;
  save now.

End DebtSettlement.

End Double.

(** * Scenarios and auxiliary notions *)

(** The lunch scenario: group 7 of users 1 (A), 2 (B) and 3 (C), whose member
    sub-documents are 11, 12 and 13; A pays 900, split equally among the
    three. *)
Definition lunch : Expense.t :=
  Expense.mk 0 900 1 7
    [Expense.mkSplit 1 300 (3333 # 100) true None;
     Expense.mkSplit 2 300 (3333 # 100) false None;
     Expense.mkSplit 3 300 (3333 # 100) false None]
    Expense.equal true false.
Definition lunch_store : Store :=
  mkStore [lunch] [Group.mk 7 [11; 12; 13]%nat] [].

(** A second expense of the group: A pays 60 for B and C. *)
Definition taxi : Expense.t :=
  Expense.mk 1 60 1 7
    [Expense.mkSplit 2 30 50 false None; Expense.mkSplit 3 30 50 false None]
    Expense.custom true false.

(** A stored document of the debts collection that carries the raw status
    pending: 120 from user 2 to user 1 in group 7, for an expense 5 that is
    no longer stored. *)
Definition stale_debt : Debt.t :=
  Debt.mk 2 1 (Some 5%nat) 7 120 (Some 120) false None [] 0 None None
          true None "" (Some Debt.pending) false.

(** The lunch and the taxi stored, with the stale debt. *)
Definition stale_store : Store :=
  mkStore [lunch; taxi] [Group.mk 7 [11; 12; 13]%nat] [stale_debt].



(** A new debt of 300 from user 2 to user 1 in group 7, for expense 0. *)
Definition fresh_debt : Debt.t :=
  Debt.mk 2 1 (Some 0%nat) 7 300 (Some 300) false None [] 0 None None
          true None "" None true.

(** The debt [fresh_debt], saved at time 0 and reminded at 700000000, after
    its due date 604800000: the next reminder is due at 786400000. *)
Definition reminded_debt : Debt.t :=
  fst (Debt.sendReminder 700000000 (fst (Debt.save 0 fresh_debt))).

(** An unpaid, active debt of group 7, stored earlier. *)
Definition owes (debtor creditor : ObjectId) (x : Q) : Debt.t :=
  Debt.mk debtor creditor (Some 0%nat) 7 x (Some x) false None [] 0 None None
          true None "" None false.

(** Turns that the matching loop can still take. *)
Definition remainingTurns (s : DebtCalculator.Matching) : nat :=
  (length (DebtCalculator.debtors s) - DebtCalculator.debtorIndex s)
  + (length (DebtCalculator.creditors s) - DebtCalculator.creditorIndex s).

(** One day, in milliseconds. *)
Definition day : Z := (1000 * 60 * 60 * 24)%Z.

(** The debt as [markAsPaid] leaves it before the save. *)
Definition closedDebt (now : Date) (d : Debt.t) : Debt.t :=
  if gtb (Debt.remainingAmount d) 0
  then Debt.push_payment
         (Debt.mkPayment (Debt.remainingAmount d) "Final payment" None now)
         (Debt.set_paid now d)
  else Debt.set_paid now d.

(** What the matching loop keeps true: the users of the two queues are the
    given ones, every entry from the current index on holds at least 0.01,
    every settlement made is of at least 0.01 between a user of the first
    queue and a user of the second, and there are at most as many
    settlements as index advances. *)
Definition matched (ds0 cs0 : list ObjectId) (s : DebtCalculator.Matching)
  : Prop :=
  map fst (DebtCalculator.debtors s) = ds0
  /\ map fst (DebtCalculator.creditors s) = cs0
  /\ (forall i p, (DebtCalculator.debtorIndex s <= i)%nat ->
        DebtCalculator.debtors s !! i = Some p -> (1 # 100) <= snd p)
  /\ (forall i p, (DebtCalculator.creditorIndex s <= i)%nat ->
        DebtCalculator.creditors s !! i = Some p -> (1 # 100) <= snd p)
  /\ Forall (fun t => (1 # 100) <= DebtCalculator.amount t
                      /\ DebtCalculator.debtor t ∈ ds0
                      /\ DebtCalculator.creditor t ∈ cs0)
            (DebtCalculator.out s)
  /\ (length (DebtCalculator.out s)
      <= DebtCalculator.debtorIndex s + DebtCalculator.creditorIndex s)%nat
  /\ (DebtCalculator.out s <> [] ->
      length (DebtCalculator.out s) + 1 <= length ds0 + length cs0)%nat.

(** ** Scenarios on doubles *)

(** An expense of 100 paid by user 1, not yet split. *)
Definition expense100 : Double.Expense.t :=
  Double.Expense.mk 0 (Binary64.lit 100) 1 0 [] Double.Expense.equal true false.

(** An expense of the amount [x] paid by user 1, not yet split. *)
Definition expenseOf (x : Q) : Double.Expense.t :=
  Double.Expense.mk 0 (Binary64.lit x) 1 0 [] Double.Expense.equal true false.

(** An unpaid, active debt of the amount [x] in group 7, stored earlier for
    expense 0, with the payments [paid] made at time 0. *)
Definition owed (debtor creditor : ObjectId) (x : Q) (paid : list Q)
  : Double.Debt.t :=
  Double.Debt.mk debtor creditor (Some 0%nat) 7 (Binary64.lit x)
    (Some (Binary64.lit x)) false None
    (map (fun p => Double.Debt.mkPayment (Binary64.lit p) "" None 0) paid)
    0 None None true None "" false.

(** A sequence of calls of [addPartialPayment], each with its amount and
    its note, on the document in memory, whether a call returns or throws. *)
Definition payAll (now : Date) (calls : list (Binary64.number * string))
    (d : Double.Debt.t) : Double.Debt.t :=
  fold_left (fun d call =>
               fst (Double.Debt.addPartialPayment now (fst call) (snd call)
                      None d))
            calls d.




(** The fields of a debt that netting never writes. *)
Definition parties (d : Double.Debt.t)
  : ObjectId * ObjectId * option ObjectId * ObjectId * option Binary64.number
    * list Double.Debt.Payment * bool :=
  (Double.Debt.debtor d, Double.Debt.creditor d, Double.Debt.expense d,
   Double.Debt.group d, Double.Debt.originalAmount d,
   Double.Debt.partialPayments d, Double.Debt.isActive d).

(** What a run of the netting loop keeps true of its state: every debt that
    waits in the map was loaded; the collection has its length and its
    documents the fields that netting never writes; a document that was not
    loaded is as it was. *)
Definition framed (loaded : list nat) (coll : list Double.Debt.t)
    (st : Double.Debt.Netting) : Prop :=
  (forall k v, fst st !! k = Some v -> fst v ∈ loaded)
  /\ length (snd st) = length coll
  /\ map parties (snd st) = map parties coll
  /\ (forall k, k ∉ loaded -> snd st !! k = coll !! k).

(** * Properties *)

(** ** Numbers *)

Section Numbers.

Lemma div100 (q : Q) : q / 100 == q * (1 # 100).
Proof. unfold Qdiv. apply Qmult_comp; reflexivity. Qed.

Lemma ltb_lt (x y : Q) : ltb x y = true <-> x < y.
Proof.
  unfold ltb. rewrite negb_true_iff, <- not_true_iff_false, Qle_bool_iff.
  split; [apply Qnot_le_lt | apply Qlt_not_le].
Qed.

Lemma ltb_ge (x y : Q) : ltb x y = false <-> y <= x.
Proof. unfold ltb. rewrite negb_false_iff. apply Qle_bool_iff. Qed.

Lemma gtb_gt (x y : Q) : gtb x y = true <-> y < x.
Proof. apply ltb_lt. Qed.

Lemma gtb_le (x y : Q) : gtb x y = false <-> x <= y.
Proof. apply ltb_ge. Qed.

Lemma leb_le (x y : Q) : leb x y = true <-> x <= y.
Proof. apply Qle_bool_iff. Qed.

Lemma sumBy_acc {A} (f : A -> Q) (l : list A) (a : Q) :
  fold_left (fun sum x => sum + f x) l a == a + sumBy f l.
Proof.
  unfold sumBy. revert a.
  induction l as [|y l IH]; intros a; simpl; [ring|].
  rewrite (IH (a + f y)), (IH (0 + f y)). ring.
Qed.

Lemma sumBy_cons {A} (f : A -> Q) (x : A) (l : list A) :
  sumBy f (x :: l) == f x + sumBy f l.
Proof. unfold sumBy at 1. simpl. rewrite sumBy_acc. ring. Qed.

Lemma sumBy_snoc {A} (f : A -> Q) (x : A) (l : list A) :
  sumBy f (l ++ [x]) == sumBy f l + f x.
Proof.
  induction l as [|y l IH]; cbn [app].
  - rewrite sumBy_cons. unfold sumBy. cbn [fold_left]. ring.
  - rewrite !sumBy_cons, IH. ring.
Qed.

End Numbers.

(** ** Payments in exact arithmetic *)

Section Payments.

Import Debt.

Lemma remainingAmount_cases (d : t) :
  (amount d - totalPaid d <= 0 /\ remainingAmount d == 0)
  \/ (0 < amount d - totalPaid d
      /\ remainingAmount d == amount d - totalPaid d).
Proof.
  unfold remainingAmount, Math_max, totalPaid.
  destruct (Q.max_spec 0 (amount d - sumBy pay_amount (partialPayments d)))
    as [[Hlt Hmax] | [Hle Hmax]]; [right | left]; split; assumption.
Qed.

Lemma remainingAmount_nonneg (d : t) : 0 <= remainingAmount d.
Proof. apply Q.le_max_l. Qed.

Lemma totalPaid_push (p : Payment) (d : t) :
  totalPaid (push_payment p d) == totalPaid d + pay_amount p.
Proof. unfold totalPaid. cbn [partialPayments push_payment]. apply sumBy_snoc. Qed.

(** The save hook writes no field but the two dates. *)
Lemma pre_save_keeps (now : Date) (d : t) :
  amount (pre_save now d) = amount d
  /\ partialPayments (pre_save now d) = partialPayments d
  /\ isPaid (pre_save now d) = isPaid d
  /\ paidAt (pre_save now d) = paidAt d.
Proof.
  unfold pre_save, calculateNextReminder.
  repeat match goal with |- context [if ?b then _ else _] => destruct b end;
    repeat split; reflexivity.
Qed.

End Payments.

(** ** Reminders and the save hook *)

Section Reminders.

Import Debt.

Lemma pre_save_new (now : Date) (d : t) :
  isNew d = true ->
  dueDate (pre_save now d) =
    match dueDate d with
    | Some due => Some due
    | None => Some (now + 7 * 24 * 60 * 60 * 1000)%Z
    end
  /\ nextReminderDate (pre_save now d) =
    match nextReminderDate d with
    | Some next => Some next
    | None => Some (now + 24 * 60 * 60 * 1000)%Z
    end.
Proof.
  intros Hnew. unfold pre_save, calculateNextReminder.
  destruct d as [db cr ex gr am oa ip pa pp rc ls nr ia dd no st nw].
  cbn in Hnew. subst nw.
  destruct dd as [due|], nr as [next|]; cbn; split; reflexivity.
Qed.

(** The two ways through [save]. *)
Lemma save_cases (now : Date) (d : t) :
  (valid d = true
   /\ save now d = (set_isNew false (pre_save now d), Return tt))
  \/ (valid d = false /\ save now d = (d, Throw (ValidationError "Debt"))).
Proof.
  unfold save, bind, get, modify, throw.
  destruct (valid d); [left | right]; split; reflexivity.
Qed.

Lemma findNeedingReminders_elem (now : Date) (coll : list t) (d : t) :
  d ∈ findNeedingReminders now coll <->
  d ∈ coll /\ isPaid d = false /\ isActive d = true
  /\ (nextReminderDate d = None
      \/ exists next, nextReminderDate d = Some next /\ (next <= now)%Z).
Proof.
  unfold findNeedingReminders. rewrite list_elem_of_filter.
  unfold needsReminder.
  destruct (nextReminderDate d) as [next|].
  - split.
    + intros ((Hp & Ha & Hn) & Hin). repeat split; try assumption.
      right. exists next. split; [reflexivity | exact Hn].
    + intros (Hin & Hp & Ha & [Hn | (next' & Hn & Hle)]);
        [discriminate|]. injection Hn as <-. repeat split; assumption.
  - split.
    + intros ((Hp & Ha & _) & Hin). repeat split; try assumption.
      left. reflexivity.
    + intros (Hin & Hp & Ha & _). repeat split; assumption.
Qed.

End Reminders.




Lemma pre_save_isActive (now : Date) (d : Debt.t) :
  Debt.isActive (Debt.pre_save now d) = Debt.isActive d.
Proof.
  unfold Debt.pre_save, Debt.calculateNextReminder.
  repeat match goal with |- context [if ?b then _ else _] => destruct b end;
    reflexivity.
Qed.

Lemma isOverdue_true (now : Date) (d : Debt.t) :
  Debt.isOverdue now d = true <->
  exists due, Debt.dueDate d = Some due /\ (due < now)%Z /\ Debt.isPaid d = false.
Proof.
  unfold Debt.isOverdue. destruct (Debt.dueDate d) as [due|].
  - rewrite andb_true_iff, bool_decide_eq_true, negb_true_iff. split.
    + intros [Hlt Hp]. exists due. repeat split; assumption.
    + intros (due' & Hd & Hlt & Hp). injection Hd as <-. split; assumption.
  - split; [discriminate | intros (due & Hd & _); discriminate].
Qed.

(** C8, as stated, fails in its second part: at time 700000001 the debt
    [reminded_debt] is unpaid, active and past its due date, yet
    [findNeedingReminders] does not return it, because its next reminder
    date lies ahead. *)
Lemma overdue_debt_not_selected :
  Debt.dueDate reminded_debt = Some 604800000%Z
  /\ (604800000 < 700000001)%Z
  /\ Debt.isPaid reminded_debt = false
  /\ Debt.isActive reminded_debt = true
  /\ reminded_debt ∉ Debt.findNeedingReminders 700000001 [reminded_debt].
Proof.
  repeat split; try reflexivity.
  intros Hin. apply findNeedingReminders_elem in Hin.
  destruct Hin as (_ & _ & _ & [Hn | (next & Hn & Hle)]).
  - discriminate Hn.
  - vm_compute in Hn. injection Hn as <-. apply Hle. reflexivity.
Qed.

(** C8 (amended): [findNeedingReminders] returns exactly the unpaid, active
    debts whose next reminder date is at most [now] or unset; an unpaid debt
    past its due date is returned exactly when it is active and its next
    reminder date is at most [now] or unset, which holds for an active debt
    saved as new without dates and not touched since. *)
Theorem findNeedingReminders_selects
    (now : Date) (coll : list Debt.t) (d : Debt.t) :
  (d ∈ Debt.findNeedingReminders now coll <->
     d ∈ coll /\ Debt.isPaid d = false /\ Debt.isActive d = true
     /\ (Debt.nextReminderDate d = None
         \/ exists next, Debt.nextReminderDate d = Some next /\ (next <= now)%Z))
  /\ (d ∈ coll -> Debt.isOverdue now d = true ->
        (d ∈ Debt.findNeedingReminders now coll <->
           Debt.isActive d = true
           /\ (Debt.nextReminderDate d = None
               \/ exists next,
                    Debt.nextReminderDate d = Some next /\ (next <= now)%Z)))
  /\ (forall (created : Date) (d0 : Debt.t),
        Debt.isNew d0 = true -> Debt.dueDate d0 = None ->
        Debt.nextReminderDate d0 = None -> Debt.isActive d0 = true ->
        d = fst (Debt.save created d0) ->
        d ∈ coll -> Debt.isOverdue now d = true ->
        d ∈ Debt.findNeedingReminders now coll).
Proof.
  split; [apply findNeedingReminders_elem|]. split.
  - intros Hin Hover. apply isOverdue_true in Hover.
    destruct Hover as (due & _ & _ & Hp).
    rewrite findNeedingReminders_elem. split.
    + intros (_ & _ & Ha & Hn). split; assumption.
    + intros (Ha & Hn). repeat split; assumption.
  - intros created d0 Hnew Hdue Hnext Hact -> Hin Hover.
    apply isOverdue_true in Hover. destruct Hover as (due & Hd & Hlt & Hp).
    apply findNeedingReminders_elem.
    destruct (save_cases created d0) as [[_ E] | [_ E]];
      rewrite E in Hd, Hp, Hin |- *;
      cbn [fst Debt.dueDate Debt.nextReminderDate Debt.isActive Debt.isPaid
           Debt.set_isNew] in *.
    + destruct (pre_save_new created d0 Hnew) as [Hd' Hn'].
      rewrite Hdue in Hd'. rewrite Hnext in Hn'. rewrite Hd' in Hd.
      injection Hd as <-.
      split; [exact Hin|]. split; [exact Hp|].
      split; [rewrite pre_save_isActive; exact Hact|].
      right. eexists. split; [exact Hn' | lia].
    + rewrite Hdue in Hd. discriminate Hd.
Qed.

(** ** The balance-sheet calculator *)

Section Calculator.

Import DebtCalculator.

Lemma matchStep_progress (s s' : Matching) :
  matchStep s = Some s' -> (remainingTurns s' < remainingTurns s)%nat.
Proof.
  unfold matchStep, remainingTurns.
  destruct (debtors s !! debtorIndex s) as [[du da]|] eqn:Ed; [|discriminate].
  destruct (creditors s !! creditorIndex s) as [[cu ca]|] eqn:Ec; [|discriminate].
  intros [= <-]. cbn [debtors creditors debtorIndex creditorIndex fst snd].
  rewrite !length_insert.
  apply lookup_lt_Some in Ed. apply lookup_lt_Some in Ec.
  unfold Math_min.
  destruct (Q.min_spec da ca) as [[Hlt Hmin] | [Hle Hmin]].
  - assert (E : ltb (da - Qmin da ca) (1 # 100) = true)
      by (apply ltb_lt; rewrite Hmin; lra).
    rewrite E. destruct (ltb (ca - Qmin da ca) (1 # 100)); lia.
  - assert (E : ltb (ca - Qmin da ca) (1 # 100) = true)
      by (apply ltb_lt; rewrite Hmin; lra).
    rewrite E. destruct (ltb (da - Qmin da ca) (1 # 100)); lia.
Qed.

(** With enough fuel the loop stops because its condition fails. *)
Lemma matchLoop_finishes (fuel : nat) (s : Matching) :
  (remainingTurns s <= fuel)%nat -> matchStep (matchLoop fuel s) = None.
Proof.
  revert s. induction fuel as [|fuel IH]; intros s Hfuel; cbn [matchLoop].
  - unfold matchStep, remainingTurns in *.
    destruct (debtors s !! debtorIndex s) eqn:Ed; [|reflexivity].
    destruct (creditors s !! creditorIndex s) eqn:Ec; [|reflexivity].
    apply lookup_lt_Some in Ed. apply lookup_lt_Some in Ec. lia.
  - destruct (matchStep s) as [s'|] eqn:E; [|exact E].
    apply IH. apply matchStep_progress in E. lia.
Qed.

Lemma matchLoop_more_fuel (fuel extra : nat) (s : Matching) :
  (remainingTurns s <= fuel)%nat ->
  matchLoop (fuel + extra) s = matchLoop fuel s.
Proof.
  revert s. induction fuel as [|fuel IH]; intros s Hfuel.
  - cbn [Nat.add matchLoop]. destruct extra as [|extra]; [reflexivity|].
    pose proof (matchLoop_finishes 0 s Hfuel) as Hstop.
    cbn [matchLoop] in Hstop |- *. rewrite Hstop. reflexivity.
  - cbn [Nat.add matchLoop]. destruct (matchStep s) as [s'|] eqn:E; [|reflexivity].
    apply IH. apply matchStep_progress in E. lia.
Qed.

(** [calculateOptimalDebts] runs its loop to the end. *)
Lemma calculateOptimalDebts_terminates (balances : Balances) :
  matchStep
    (matchLoop (length (debtorsOf balances) + length (creditorsOf balances))
       (mkMatching (debtorsOf balances) (creditorsOf balances) 0 0 []))
  = None.
Proof. apply matchLoop_finishes. unfold remainingTurns. cbn. lia. Qed.

Lemma assign_zero (k : ObjectId) (b : Balances) :
  Forall (fun entry => snd entry = Some 0) b ->
  Forall (fun entry => snd entry = Some 0) (assign k 0 b).
Proof.
  induction b as [|[k' y] b IH]; intros Hall; cbn [assign].
  - repeat constructor.
  - apply Forall_cons in Hall. destruct Hall as [Hy Hall].
    destruct (decide (k = k')); constructor; auto.
Qed.

(** The sheet after the members have been entered: every balance is 0. *)
Lemma members_at_zero (members : list ObjectId) (b : Balances) :
  Forall (fun entry => snd entry = Some 0) b ->
  Forall (fun entry => snd entry = Some 0)
         (fold_left (fun b member => assign member 0 b) members b).
Proof.
  revert b. induction members as [|m members IH]; intros b Hzero; [exact Hzero|].
  cbn [fold_left]. apply IH, assign_zero, Hzero.
Qed.

(** A sheet of zeros has neither a debtor nor a creditor. *)
Lemma zeros_unmatched (b : Balances) :
  Forall (fun entry => snd entry = Some 0) b ->
  debtorsOf b = [] /\ creditorsOf b = [].
Proof.
  induction b as [|[k v] b IH]; intros Hzero; [split; reflexivity|].
  apply Forall_cons in Hzero. destruct Hzero as [Hv Hzero].
  cbn [snd] in Hv. subst v. destruct (IH Hzero) as [H1 H2].
  unfold debtorsOf, creditorsOf in *. cbn [omap list_omap snd fst].
  change (gtb 0 (1 # 100)) with false. change (ltb 0 (- (1 # 100))) with false.
  cbn iota. split; assumption.
Qed.

Lemma no_expense_no_settlement (members : list ObjectId) :
  memberBalances members [] =
    (fold_left (fun b member => assign member 0 b) members [], Return tt)
  /\ calculateOptimalDebts
       (fold_left (fun b member => assign member 0 b) members []) members = [].
Proof.
  split; [reflexivity|].
  destruct (zeros_unmatched _ (members_at_zero members [] ltac:(constructor)))
    as [Hd Hc].
  unfold calculateOptimalDebts. rewrite Hd, Hc. reflexivity.
Qed.

(** A debt as the calculator builds it has neither [expense] nor
    [originalAmount]: [save] rejects it. *)
Lemma newDebt_rejected (now : Date) (g : ObjectId) (debt : Transfer) :
  Debt.save now (newDebt g debt)
  = (newDebt g debt, Throw (ValidationError "Debt")).
Proof. reflexivity. Qed.

Lemma filter_kept_kept (g : ObjectId) (coll : list Debt.t) :
  filter (fun d => ~ pendingIn g d) (filter (fun d => ~ pendingIn g d) coll)
  = filter (fun d => ~ pendingIn g d) coll.
Proof.
  induction coll as [|d coll IH]; [reflexivity|].
  destruct (decide (~ pendingIn g d)) as [H | H].
  - rewrite (filter_cons_True (fun d => ~ pendingIn g d) d coll H).
    rewrite (filter_cons_True (fun d => ~ pendingIn g d) d _ H), IH.
    reflexivity.
  - rewrite (filter_cons_False (fun d => ~ pendingIn g d) d coll H). exact IH.
Qed.

Lemma filter_kept_pending (g : ObjectId) (coll : list Debt.t) :
  filter (pendingIn g) (filter (fun d => ~ pendingIn g d) coll) = [].
Proof.
  induction coll as [|d coll IH]; [reflexivity|].
  destruct (decide (~ pendingIn g d)) as [H | H].
  - rewrite (filter_cons_True (fun d => ~ pendingIn g d) d coll H).
    rewrite (filter_cons_False (pendingIn g) d _ H). exact IH.
  - rewrite (filter_cons_False (fun d => ~ pendingIn g d) d coll H). exact IH.
Qed.

(** The three outcomes of [calculateDebts]: the query for the expenses is
    rejected; the group is missing; the pending debts of a group without
    expenses are deleted. *)
Lemma calculateDebts_cases (now : Date) (g : ObjectId) (st : Store) :
  (filter (fun e => Expense.group e = g) (expenses st) <> []
   /\ calculateDebts now g st = (st, Throw StrictPopulateError))
  \/ (filter (fun e => Expense.group e = g) (expenses st) = []
      /\ list_find (fun gr => Group._id gr = g) (groups st) = None
      /\ calculateDebts now g st = (st, Throw "Group not found"))
  \/ (filter (fun e => Expense.group e = g) (expenses st) = []
      /\ (exists i gr,
            list_find (fun gr => Group._id gr = g) (groups st) = Some (i, gr))
      /\ calculateDebts now g st =
           (mkStore (expenses st) (groups st)
              (filter (fun d => ~ pendingIn g d) (debts st)),
            Return [])).
Proof.
  unfold calculateDebts.
  destruct (decide (filter (fun e => Expense.group e = g) (expenses st) = []))
    as [Hnone | Hsome].
  - right. rewrite Hnone. rewrite bool_decide_eq_true_2 by reflexivity.
    cbn [negb].
    destruct (list_find _ (groups st)) as [[i gr]|] eqn:Hg.
    + right. split; [reflexivity|]. split; [exists i, gr; reflexivity|].
      destruct (no_expense_no_settlement (Group.members gr)) as [Hb Hts].
      rewrite Hb, Hts. cbn [map stored omap list_omap firstRejection].
      rewrite app_nil_r. reflexivity.
    + left. repeat split; reflexivity.
  - left. split; [exact Hsome|].
    rewrite bool_decide_eq_false_2 by exact Hsome. reflexivity.
Qed.

(** A stored expense of the group is found by the query. *)
Lemma expense_found (g : ObjectId) (es : list Expense.t) (e : Expense.t) :
  e ∈ es -> Expense.group e = g ->
  filter (fun e => Expense.group e = g) es <> [].
Proof.
  intros Hin Hg Hnone.
  assert (He : e ∈ filter (fun e => Expense.group e = g) es)
    by (apply list_elem_of_filter; split; assumption).
  rewrite Hnone in He. apply elem_of_nil in He. exact He.
Qed.

End Calculator.

Lemma calculateDebts_replaces_expenses
    (now : Date) (g : ObjectId) (st : Store) :
  expenses (fst (DebtCalculator.calculateDebts now g st)) = expenses st.
Proof.
  destruct (calculateDebts_cases now g st)
    as [[_ E] | [(_ & _ & E) | (_ & _ & E)]]; rewrite E; reflexivity.
Qed.

(** C2, on the code: in the lunch scenario the query of [calculateDebts]
    for the expenses of the group populates [splitDetails.user], a path that
    the schema of the expenses does not have, and is rejected; the run
    stores no debt, and the summaries of A and of B show a net balance of 0,
    not of 600 and of -300. *)
Theorem lunch_debts_never_derived (now : Date) :
  let run := DebtCalculator.calculateDebts now 7 lunch_store in
  snd run = Throw StrictPopulateError
  /\ fst run = lunch_store
  /\ debts (fst run) = []
  /\ DebtCalculator.netBalance
       (DebtCalculator.getUserDebtSummary 1 (debts (fst run))) == 0
  /\ DebtCalculator.netBalance
       (DebtCalculator.getUserDebtSummary 2 (debts (fst run))) == 0.
Proof.
  repeat split; vm_compute; reflexivity.
Qed.

(** Behind that error lies a second defect.  The loop of [calculateDebts]
    credits the payer, which for the lunch would give A +600 and B and C
    -300 each; [calculateOptimalDebts] reads a positive balance as money
    owed and would make A the debtor of B and of C. *)
Example payer_taken_for_debtor :
  map (fun t => (DebtCalculator.debtor t, DebtCalculator.creditor t,
                 Qred (DebtCalculator.amount t)))
      (DebtCalculator.calculateOptimalDebts
         [(1%nat, Some 600); (2%nat, Some (- (300))); (3%nat, Some (- (300)))]
         [11; 12; 13]%nat)
  = [(1%nat, 2%nat, 300); (1%nat, 3%nat, 300)].
Proof. vm_compute. reflexivity. Qed.

(** The defect reaches every rebuild: a run for a group that has a stored
    expense is rejected by the query for the expenses and changes nothing,
    so no pending debt of the group is replaced; no run changes the expenses
    or the groups or creates a debt: the debts are left as they were, or
    without the pending debts of the group; and a debt built from a
    settlement, having neither [expense] nor [originalAmount], would be
    rejected by [save].  With the lunch and the taxi stored, the stale
    pending debt of 120 stays. *)
Lemma calculateDebts_never_rebuilds
    (now : Date) (g : ObjectId) (st : Store) :
  let run := DebtCalculator.calculateDebts now g st in
  (forall e, e ∈ expenses st -> Expense.group e = g ->
     snd run = Throw StrictPopulateError /\ fst run = st)
  /\ expenses (fst run) = expenses st
  /\ groups (fst run) = groups st
  /\ (debts (fst run) = debts st
      \/ debts (fst run)
         = filter (fun d => ~ DebtCalculator.pendingIn g d) (debts st))
  /\ (forall settlement,
        throws (Debt.save now) (DebtCalculator.newDebt g settlement))
  /\ debts (fst (DebtCalculator.calculateDebts now 7 stale_store))
     = [stale_debt].
Proof.
  intros run. subst run.
  split; [|split; [|split; [|split; [|split]]]].
  - intros e Hin Hg.
    destruct (calculateDebts_cases now g st)
      as [[_ E] | [(Hnone & _) | (Hnone & _)]].
    + rewrite E. split; reflexivity.
    + exfalso. exact (expense_found g _ e Hin Hg Hnone).
    + exfalso. exact (expense_found g _ e Hin Hg Hnone).
  - apply calculateDebts_replaces_expenses.
  - destruct (calculateDebts_cases now g st)
      as [[_ E] | [(_ & _ & E) | (_ & _ & E)]]; rewrite E; reflexivity.
  - destruct (calculateDebts_cases now g st)
      as [[_ E] | [(_ & _ & E) | (_ & _ & E)]]; rewrite E;
      [left | left | right]; reflexivity.
  - intros settlement. exists (ValidationError "Debt").
    rewrite newDebt_rejected. reflexivity.
  - reflexivity.
Qed.




(** C6: a second [calculateDebts] for the same group, run on what the
    first one has left, leaves the store as the first one left it and
    completes as the first one did; in particular the pending debts of the
    group are those that a single invocation leaves. *)
Theorem calculateDebts_idempotent
    (first second : Date) (g : ObjectId) (st : Store) :
  let once := DebtCalculator.calculateDebts first g st in
  let twice := DebtCalculator.calculateDebts second g (fst once) in
  fst twice = fst once
  /\ snd twice = snd once
  /\ filter (DebtCalculator.pendingIn g) (debts (fst twice))
     = filter (DebtCalculator.pendingIn g) (debts (fst once)).
Proof.
  intros once twice.
  assert (H : fst twice = fst once /\ snd twice = snd once);
    [|destruct H as [H1 H2]; split; [exact H1|]; split;
      [exact H2 | rewrite H1; reflexivity]].
  subst once twice.
  destruct (calculateDebts_cases first g st)
    as [[Hsome E] | [(Hnone & Hg & E) | (Hnone & (i & gr & Hg) & E)]];
    rewrite E; cbn [fst snd].
  - destruct (calculateDebts_cases second g st)
      as [[_ E'] | [(Hnone' & _) | (Hnone' & _)]];
      [rewrite E'; split; reflexivity | contradiction | contradiction].
  - destruct (calculateDebts_cases second g st)
      as [[Hsome' _] | [(_ & _ & E') | (_ & (i & gr & Hg') & _)]];
      [contradiction | rewrite E'; split; reflexivity | congruence].
  - set (st1 := mkStore (expenses st) (groups st)
                  (filter (fun d => ~ DebtCalculator.pendingIn g d) (debts st))).
    destruct (calculateDebts_cases second g st1)
      as [[Hsome' _] | [(_ & Hg' & _) | (_ & _ & E')]].
    + contradiction.
    + cbn [groups st1] in Hg'. congruence.
    + rewrite E'. cbn [expenses groups debts st1].
      rewrite filter_kept_kept. split; reflexivity.
Qed.

(** ** Deleting an expense *)

(** C7, as stated, fails in its first part: after the payer A has deleted
    the lunch, no record with its identifier is stored any more; nothing
    flags it inactive. *)
Lemma deleted_expense_is_gone :
  list_find (fun e => Expense._id e = 0%nat) (expenses lunch_store)
    = Some (0%nat, lunch)
  /\ ExpenseController.code
       (snd (ExpenseController.deleteExpense 0 0 1 lunch_store)) = 200%nat
  /\ expenses (fst (ExpenseController.deleteExpense 0 0 1 lunch_store)) = [].
Proof.
  split; [|split]; vm_compute; reflexivity.
Qed.

(** C7 (amended): deleting a stored expense on behalf of its payer removes
    the record from the collection of expenses (the other expenses stay as
    they are; no [isActive] flag is written) and then runs [calculateDebts]
    for the group of the expense on what is left; the answer is 200 when
    that run returns and 500 when it throws, the expense being gone in both
    cases. *)
Theorem deleteExpense_removes_and_recalculates
    (now : Date) (id user : ObjectId) (st : Store)
    (i : nat) (expense : Expense.t) :
  list_find (fun e => Expense._id e = id) (expenses st) = Some (i, expense) ->
  Expense.paidBy expense = user ->
  let left := mkStore (delete i (expenses st)) (groups st) (debts st) in
  let run := DebtCalculator.calculateDebts now (Expense.group expense) left in
  let result := ExpenseController.deleteExpense now id user st in
  fst result = fst run
  /\ expenses (fst result) = delete i (expenses st)
  /\ (returns (DebtCalculator.calculateDebts now (Expense.group expense)) left ->
        ExpenseController.code (snd result) = 200%nat)
  /\ (throws (DebtCalculator.calculateDebts now (Expense.group expense)) left ->
        ExpenseController.code (snd result) = 500%nat).
Proof.
  intros Hfind Hpayer left run result. subst result run.
  unfold ExpenseController.deleteExpense. rewrite Hfind.
  rewrite (bool_decide_eq_true_2 _ Hpayer). cbn [negb]. fold left.
  unfold returns, throws.
  pose proof (calculateDebts_replaces_expenses now (Expense.group expense) left)
    as Hexp.
  destruct (DebtCalculator.calculateDebts now (Expense.group expense) left)
    as [st2 [ts | e]]; cbn [fst snd] in *.
  - split; [reflexivity|]. split; [exact Hexp|].
    split; [intros _; reflexivity|]. intros [e He]. discriminate He.
  - split; [reflexivity|]. split; [exact Hexp|].
    split; [intros [a Ha]; discriminate Ha|]. intros _. reflexivity.
Qed.

(** With the lunch and the taxi stored, deleting the lunch leaves the taxi
    and is answered with 500. *)
Lemma deleteExpense_removes_and_recalculates_witness :
  expenses (fst (ExpenseController.deleteExpense 0 0 1 stale_store)) = [taxi]
  /\ ExpenseController.code
       (snd (ExpenseController.deleteExpense 0 0 1 stale_store)) = 500%nat.
Proof.
  assert (Hfind : list_find (fun e => Expense._id e = 0%nat)
                    (expenses stale_store) = Some (0%nat, lunch))
    by (vm_compute; reflexivity).
  assert (Hpayer : Expense.paidBy lunch = 1%nat) by reflexivity.
  destruct (deleteExpense_removes_and_recalculates 0 0 1 stale_store 0 lunch
              Hfind Hpayer) as (_ & Hexp & _ & Hthrows).
  split; [exact Hexp|]. apply Hthrows.
  exists StrictPopulateError. reflexivity.
Defined.

(** The defect of [calculateDebts] shows here too: whenever another expense
    of the group is left, the run throws, the answer is 500 and no debt
    changes, though the expense is gone. *)
Lemma deleteExpense_with_expenses_left
    (now : Date) (id user : ObjectId) (st : Store)
    (i : nat) (expense other : Expense.t) :
  list_find (fun e => Expense._id e = id) (expenses st) = Some (i, expense) ->
  Expense.paidBy expense = user ->
  other ∈ delete i (expenses st) ->
  Expense.group other = Expense.group expense ->
  ExpenseController.deleteExpense now id user st
  = (mkStore (delete i (expenses st)) (groups st) (debts st),
     ExpenseController.mkResponse 500 false "Server error").
Proof.
  intros Hfind Hpayer Hin Hg.
  unfold ExpenseController.deleteExpense. rewrite Hfind.
  rewrite (bool_decide_eq_true_2 _ Hpayer). cbn [negb].
  set (left := mkStore (delete i (expenses st)) (groups st) (debts st)).
  destruct (calculateDebts_cases now (Expense.group expense) left)
    as [[_ E] | [(Hnone & _) | (Hnone & _)]];
    [rewrite E; reflexivity | |];
    exfalso; exact (expense_found _ _ other Hin Hg Hnone).
Qed.

(** * Properties of the money paths on doubles *)

(** ** Doubles *)

Section Doubles.

Import Binary64.







Lemma positive_when_not_below (x : number) :
  leb x zero = false -> isNaN x = false -> leb zero x = true.
Proof.
  destruct x as [s|s| |s m e]; try destruct s; try discriminate; reflexivity.
Qed.

Lemma Math_max_zero (x : number) : ltb (Math_max zero x) zero = false.
Proof. destruct x as [s|s| |s m e]; try destruct s; reflexivity. Qed.

Lemma sumBy_push {A} (f : A -> number) (l : list A) (x : A) :
  sumBy f (l ++ [x]) = add (sumBy f l) (f x).
Proof. unfold sumBy. rewrite fold_left_app. reflexivity. Qed.

End Doubles.

(** ** The split calculator *)

Section SplitCalculator.

Import Binary64 Double Double.Expense.

(** The two ways through [calculateCustomSplits]. *)
Lemma calculateCustomSplits_cases (e : t) (cs : list (ObjectId * number)) :
  (gtb (Math_abs (sub (sumBy snd cs) (amount e))) (lit 0.01) = true
   /\ calculateCustomSplits cs e =
        (e, Throw "Custom split amounts must equal the total expense amount"))
  \/ (gtb (Math_abs (sub (sumBy snd cs) (amount e))) (lit 0.01) = false
      /\ snd (calculateCustomSplits cs e) = Return tt
      /\ splits (fst (calculateCustomSplits cs e)) =
           map (fun split =>
                  mkSplit (fst split) (snd split)
                    (div (Math_round (mul (div (snd split) (amount e))
                                          (lit 10000)))
                         (lit 100))
                    (sameId (fst split) (paidBy e)) None) cs).
Proof.
  unfold calculateCustomSplits, bind, get, modify, throw. cbn [fst snd].
  destruct (gtb _ _); [left | right]; repeat split; reflexivity.
Qed.

(** The two ways through [calculatePercentageSplits]. *)
Lemma calculatePercentageSplits_cases (e : t) (ps : list (ObjectId * number)) :
  (gtb (Math_abs (sub (sumBy snd ps) (lit 100))) (lit 0.01) = true
   /\ calculatePercentageSplits ps e =
        (e, Throw "Percentage splits must total 100%"))
  \/ (gtb (Math_abs (sub (sumBy snd ps) (lit 100))) (lit 0.01) = false
      /\ snd (calculatePercentageSplits ps e) = Return tt
      /\ splits (fst (calculatePercentageSplits ps e)) =
           map (fun split =>
                  mkSplit (fst split)
                    (round2 (div (mul (amount e) (snd split)) (lit 100)))
                    (snd split)
                    (sameId (fst split) (paidBy e)) None) ps).
Proof.
  unfold calculatePercentageSplits, bind, get, modify, throw. cbn [fst snd].
  destruct (gtb _ _); [left | right]; repeat split; reflexivity.
Qed.

(** C1, on the code: [calculateEqualSplits] gives every participant, the
    last one like the others, the share [amount / n] rounded to two
    decimals, and no split takes up what the rounding leaves; the split of
    the payer is marked paid.  For 100 among three the splits are 33.33
    each and add up to 99.99, not to 100, and the save hook of the model
    refuses the expense ([Math.abs(99.99 - 100)] is above 0.01 in
    doubles).  [calculatePercentageSplits] rounds alike: 10 by 33.33, 33.33
    and 33.34 per cent gives 3.33 three times, 9.99 in all. *)
Theorem equal_split_keeps_no_remainder :
  (forall (e : t) (userIds : list ObjectId),
     let e' := fst (calculateEqualSplits userIds e) in
     map split_user (splits e') = userIds
     /\ Forall (fun s =>
                  split_amount s
                  = round2 (div (amount e) (ofNat (length userIds)))
                  /\ split_isPaid s = sameId (split_user s) (paidBy e))
               (splits e'))
  /\ (let e' := fst (calculateEqualSplits [1; 2; 3]%nat expense100) in
      map split_amount (splits e') = [lit 33.33; lit 33.33; lit 33.33]
      /\ totalSplitAmount e' = lit 99.99
      /\ eqb (totalSplitAmount e') (amount e') = false
      /\ valid e' = true
      /\ snd (save e')
         = Throw "Split amounts must equal the total expense amount")
  /\ (let e' :=
        fst (calculatePercentageSplits
               [(1%nat, lit 33.33); (2%nat, lit 33.33); (3%nat, lit 33.34)]
               (expenseOf 10)) in
      map split_amount (splits e') = [lit 3.33; lit 3.33; lit 3.33]
      /\ totalSplitAmount e' = lit 9.99
      /\ eqb (totalSplitAmount e') (amount e') = false).
Proof.
  split; [|split].
  - intros e userIds e'. subst e'.
    unfold calculateEqualSplits, bind, get, modify. cbn [fst snd splits set_splits].
    split.
    + rewrite map_map. cbn [split_user]. apply map_id.
    + apply Forall_map, Forall_true. intros userId.
      cbn [split_amount split_isPaid split_user]. split; reflexivity.
  - vm_compute. repeat split; reflexivity.
  - vm_compute. repeat split; reflexivity.
Qed.

(** C9, as stated, fails where a sum is one cent off: 0.02 and 0.02 against
    an expense of 0.03, and three times 33.33 per cent, differ from their
    target by 0.01, which does not exceed 0.01, yet both are refused: in
    doubles the differences are 0.010000000000000002 and
    0.010000000000005116. *)
Lemma one_cent_off_is_refused :
  throws (calculateCustomSplits [(1%nat, lit 0.02); (2%nat, lit 0.02)])
         (expenseOf 0.03)
  /\ ~ (0.01 < Qabs (0.02 + 0.02 - 0.03))
  /\ throws (calculatePercentageSplits
               [(1%nat, lit 33.33); (2%nat, lit 33.33); (3%nat, lit 33.33)])
            (expenseOf 10)
  /\ ~ (0.01 < Qabs (33.33 + 33.33 + 33.33 - 100)).
Proof.
  split; [|split; [|split]].
  - eexists. vm_compute. reflexivity.
  - intros H. vm_compute in H. discriminate H.
  - eexists. vm_compute. reflexivity.
  - intros H. vm_compute in H. discriminate H.
Qed.

(** C9 (amended): [calculateCustomSplits] throws exactly when
    [Math.abs(total - amount) > 0.01] holds in double arithmetic for the sum
    [total] of the given amounts, and [calculatePercentageSplits] exactly
    when [Math.abs(total - 100) > 0.01] does for the sum of the given
    percentages; a call that throws leaves the expense as it was; when
    [calculatePercentageSplits] returns, the amount of each participant is
    [Math.round(amount * percentage / 100 * 100) / 100]. *)
Theorem invalid_split_exactly_beyond_tolerance
    (e : t) (cs ps : list (ObjectId * number)) :
  (throws (calculateCustomSplits cs) e <->
     gtb (Math_abs (sub (sumBy snd cs) (amount e))) (lit 0.01) = true)
  /\ (throws (calculateCustomSplits cs) e ->
        fst (calculateCustomSplits cs e) = e)
  /\ (throws (calculatePercentageSplits ps) e <->
        gtb (Math_abs (sub (sumBy snd ps) (lit 100))) (lit 0.01) = true)
  /\ (throws (calculatePercentageSplits ps) e ->
        fst (calculatePercentageSplits ps e) = e)
  /\ (returns (calculatePercentageSplits ps) e ->
        map (fun s => (split_user s, split_amount s))
            (splits (fst (calculatePercentageSplits ps e)))
        = map (fun p => (fst p,
                         round2 (div (mul (amount e) (snd p)) (lit 100))))
              ps).
Proof.
  unfold throws, returns.
  destruct (calculateCustomSplits_cases e cs) as [[Hc Ec] | (Hc & Ec & _)];
    destruct (calculatePercentageSplits_cases e ps)
      as [[Hp Ep] | (Hp & Ep & Sp)];
    rewrite ?Ec, ?Ep, ?Hc, ?Hp; cbn [fst snd].
  - split; [split; [reflexivity | intros _; eexists; reflexivity]|].
    split; [reflexivity|].
    split; [split; [reflexivity | intros _; eexists; reflexivity]|].
    split; [reflexivity|]. intros [a Ha]. discriminate Ha.
  - split; [split; [reflexivity | intros _; eexists; reflexivity]|].
    split; [reflexivity|].
    split; [split; [intros [x Hx]; discriminate Hx | discriminate]|].
    split; [intros [x Hx]; discriminate Hx|].
    intros _. rewrite Sp, map_map. reflexivity.
  - split; [split; [intros [x Hx]; discriminate Hx | discriminate]|].
    split; [intros [x Hx]; discriminate Hx|].
    split; [split; [reflexivity | intros _; eexists; reflexivity]|].
    split; [reflexivity|]. intros [a Ha]. discriminate Ha.
  - split; [split; [intros [x Hx]; discriminate Hx | discriminate]|].
    split; [intros [x Hx]; discriminate Hx|].
    split; [split; [intros [x Hx]; discriminate Hx | discriminate]|].
    split; [intros [x Hx]; discriminate Hx|].
    intros _. rewrite Sp, map_map. reflexivity.
Qed.

(** The code at the amounts where a product falls just below a tie:
    2.01 among two gives 1 each ([2.01 / 2 * 100] is 100.49999999999999),
    0.29 among two gives 0.14 each. *)
Example split_below_the_tie :
  map split_amount (splits (fst (calculateEqualSplits [1; 2]%nat (expenseOf 2.01))))
  = [lit 1; lit 1]
  /\ map split_amount
        (splits (fst (calculateEqualSplits [1; 2]%nat (expenseOf 0.29))))
     = [lit 0.14; lit 0.14].
Proof. split; vm_compute; reflexivity. Qed.

Lemma sumBy_map64 {A B} (f : B -> number) (g : A -> B) (l : list A) :
  sumBy f (map g l) = sumBy (fun x => f (g x)) l.
Proof.
  unfold sumBy. generalize zero.
  induction l as [|x l IH]; intros acc; [reflexivity|].
  cbn [map fold_left]. apply IH.
Qed.

(** X10: an expense whose splits [calculateCustomSplits] has set passes the
    check of the save hook, which computes the same sum of the same amounts;
    so its [save] returns exactly when the validators of the schema pass.
    An equal split need not pass the hook: 0.03 among two gives 0.02 and
    0.02, and the expense is refused. *)
Theorem custom_splits_pass_the_hook
    (e : t) (customSplits : list (ObjectId * number)) :
  (returns (calculateCustomSplits customSplits) e ->
     let e' := fst (calculateCustomSplits customSplits e) in
     totalSplitAmount e' = sumBy snd customSplits
     /\ amount e' = amount e
     /\ returns pre_save e'
     /\ (returns save e' <-> valid e' = true))
  /\ (let e' := fst (calculateEqualSplits [1; 2]%nat (expenseOf 0.03)) in
      map split_amount (splits e') = [lit 0.02; lit 0.02]
      /\ valid e' = true
      /\ snd (save e')
         = Throw "Split amounts must equal the total expense amount").
Proof.
  split; [|vm_compute; repeat split; reflexivity].
  intros [a Ha] e'. subst e'. revert Ha.
  unfold calculateCustomSplits, bind, get, modify, throw. cbn [fst snd].
  destruct (gtb (Math_abs (sub (sumBy snd customSplits) (amount e))) (lit 0.01))
    eqn:Hc; [discriminate|]. intros _. cbn [fst].
  set (e' := set_splits _ custom e).
  assert (Hsum : totalSplitAmount e' = sumBy snd customSplits).
  { unfold totalSplitAmount. subst e'. cbn [splits set_splits].
    rewrite sumBy_map64. reflexivity. }
  assert (Hhook : snd (pre_save e') = Return tt).
  { unfold pre_save, bind, get, throw, ret. cbn [fst snd]. rewrite Hsum.
    change (amount e') with (amount e). rewrite Hc, andb_false_r. reflexivity. }
  split; [exact Hsum|]. split; [reflexivity|].
  split; [eexists; exact Hhook|].
  unfold returns, save, bind, get, throw. cbn [fst snd].
  destruct (valid e').
  - split; [reflexivity | intros _; eexists; exact Hhook].
  - split; [intros [x Hx]; discriminate Hx | discriminate].
Qed.

End SplitCalculator.

(** ** Partial payments *)

Section Payments64.

Import Binary64 Double Double.Debt.

(** The save hook writes no field but the two dates. *)
Lemma pre_save_keeps64 (now : Date) (d : t) :
  amount (pre_save now d) = amount d
  /\ partialPayments (pre_save now d) = partialPayments d
  /\ isPaid (pre_save now d) = isPaid d
  /\ paidAt (pre_save now d) = paidAt d.
Proof.
  unfold pre_save, calculateNextReminder.
  repeat match goal with |- context [if ?b then _ else _] => destruct b end;
    repeat split; reflexivity.
Qed.

Lemma remainingAmount_push (p : Payment) (d : t) :
  remainingAmount (push_payment p d)
  = Math_max zero (sub (amount d) (add (totalPaid d) (pay_amount p))).
Proof.
  unfold remainingAmount, totalPaid. cbn [amount partialPayments push_payment].
  rewrite sumBy_push. reflexivity.
Qed.

(** The validators on a document with one more payment. *)
Lemma valid_push (p : Payment) (d : t) :
  valid d = true -> valid (push_payment p d) = payment_valid p.
Proof.
  unfold valid. cbn [expense originalAmount amount partialPayments notes
                     push_payment].
  rewrite forallb_app. cbn [forallb]. rewrite andb_true_r.
  destruct (bool_decide _), (match originalAmount d with
                             | Some _ => _
                             | None => _
                             end), (leb _ _),
    (forallb payment_valid (partialPayments d)), (_ <=? _)%nat;
    try discriminate.
  intros _. destruct (payment_valid p); reflexivity.
Qed.

Variables (now : Date) (payment : number) (note : string)
          (confirmedBy : option ObjectId).

Let record := mkPayment payment note confirmedBy now.

(** The three ways through [addPartialPayment]. *)
Lemma addPartialPayment_cases (d : t) :
  (leb payment zero = true
   /\ addPartialPayment now payment note confirmedBy d
      = (d, Throw "Payment amount must be greater than 0"))
  \/ (leb payment zero = false /\ gtb payment (remainingAmount d) = true
      /\ addPartialPayment now payment note confirmedBy d
         = (d, Throw "Payment amount cannot exceed remaining debt"))
  \/ (leb payment zero = false /\ gtb payment (remainingAmount d) = false
      /\ addPartialPayment now payment note confirmedBy d =
           if valid (push_payment record d)
           then (set_isNew false
                   (pre_save now
                      (if leb (remainingAmount (push_payment record d))
                              (lit 0.01)
                       then set_paid now (push_payment record d)
                       else push_payment record d)),
                 Return tt)
           else (if leb (remainingAmount (push_payment record d)) (lit 0.01)
                 then set_paid now (push_payment record d)
                 else push_payment record d,
                 Throw (ValidationError "Debt"))).
Proof.
  subst record.
  cbv [addPartialPayment bind get modify when save throw ret].
  destruct (leb payment zero) eqn:E0; [left; split; reflexivity|].
  right.
  destruct (gtb payment (remainingAmount d)) eqn:E1;
    [left; repeat split; reflexivity|].
  right. split; [reflexivity|]. split; [reflexivity|].
  destruct (leb (remainingAmount _) (lit 0.01));
    change (valid (set_paid now ?x)) with (valid x);
    destruct (valid _); reflexivity.
Qed.

End Payments64.

(** C4, as stated, fails on the cent: a debt of 100 on which 99.99 is paid
    has 0.01 outstanding, which is at most 0.01, yet it is not marked paid,
    for in doubles [100 - 99.99] is 0.010000000000005116.  Nor does the
    outstanding amount go down by the payment: on a debt of 1 with 0.2 paid,
    a payment of 0.1 takes it from 0.8 to 0.7, while [0.8 - 0.1] is
    0.7000000000000001. *)
Lemma cent_left_is_not_marked_paid :
  returns (Double.Debt.addPartialPayment 5 (Binary64.lit 99.99) "" None)
          (owed 2 1 100 [])
  /\ 100 - 99.99 <= 0.01
  /\ Double.Debt.isPaid
       (fst (Double.Debt.addPartialPayment 5 (Binary64.lit 99.99) "" None
               (owed 2 1 100 []))) = false
  /\ returns (Double.Debt.addPartialPayment 5 (Binary64.lit 0.1) "" None)
             (owed 2 1 1 [0.2])
  /\ Binary64.eqb
       (Double.Debt.remainingAmount
          (fst (Double.Debt.addPartialPayment 5 (Binary64.lit 0.1) "" None
                  (owed 2 1 1 [0.2]))))
       (Binary64.sub (Double.Debt.remainingAmount (owed 2 1 1 [0.2]))
                     (Binary64.lit 0.1))
     = false.
Proof.
  split; [eexists; vm_compute; reflexivity|].
  split; [intros H; vm_compute in H; discriminate H|].
  split; [vm_compute; reflexivity|].
  split; [eexists; vm_compute; reflexivity|].
  vm_compute. reflexivity.
Qed.

(** Likewise a payment of 0.2 on a debt of 0.3 of which 0.1 is paid is
    refused as exceeding the remaining debt: in doubles [0.3 - 0.1] is
    0.19999999999999998. *)
Example exact_rest_is_refused :
  snd (Double.Debt.addPartialPayment 5 (Binary64.lit 0.2) "" None
         (owed 2 1 0.3 [0.1]))
  = Throw "Payment amount cannot exceed remaining debt".
Proof. vm_compute. reflexivity. Qed.

Section PaymentClaim.

Import Binary64 Double Double.Debt.

(** C4 (amended): with the outstanding amount read as [remainingAmount],
    computed in double arithmetic, [addPartialPayment] throws when the
    payment is at most 0 or exceeds the outstanding amount, and then the
    debt (its outstanding amount and its list of payments with it) is as
    before; otherwise one payment record is appended, the outstanding
    amount becoming [Math.max(0, amount - (totalPaid + payment))], the debt
    is marked paid and [paidAt] stamped exactly when that amount is at most
    0.01, and the closing [save] stores a debt that was valid before if the
    payment is a number and its note has at most 200 characters, and
    rejects it otherwise; the outstanding amount is never negative. *)
Theorem addPartialPayment_guards_remaining
    (now : Date) (payment : number) (note : string)
    (confirmedBy : option ObjectId) (d : t) :
  let call := addPartialPayment now payment note confirmedBy in
  let record := mkPayment payment note confirmedBy now in
  let d' := fst (call d) in
  (leb payment zero = true \/ gtb payment (remainingAmount d) = true ->
     throws call d /\ d' = d)
  /\ (leb payment zero = false -> gtb payment (remainingAmount d) = false ->
        partialPayments d' = partialPayments d ++ [record]
        /\ amount d' = amount d
        /\ remainingAmount d'
           = Math_max zero (sub (amount d) (add (totalPaid d) payment))
        /\ (leb (remainingAmount d') (lit 0.01) = true ->
              isPaid d' = true /\ paidAt d' = Some now)
        /\ (leb (remainingAmount d') (lit 0.01) = false ->
              isPaid d' = isPaid d /\ paidAt d' = paidAt d)
        /\ (valid d = true ->
              (returns call d <->
                 isNaN payment = false /\ (String.length note <= 200)%nat)))
  /\ ltb (remainingAmount d') zero = false.
Proof.
  intros call record d'.
  split; [|split; [|apply Math_max_zero]].
  - intros Hguard. subst d' call. unfold throws.
    destruct (addPartialPayment_cases now payment note confirmedBy d)
      as [[H0 E] | [(H0 & H1 & E) | (H0 & H1 & E)]].
    + rewrite E. split; [eexists|]; reflexivity.
    + rewrite E. split; [eexists|]; reflexivity.
    + destruct Hguard as [H | H]; congruence.
  - intros H0 H1. subst d' call. unfold returns.
    destruct (addPartialPayment_cases now payment note confirmedBy d)
      as [[H0' E] | [(_ & H1' & E) | (_ & _ & E)]]; [congruence | congruence |].
    change (mkPayment payment note confirmedBy now) with record in E.
    set (pushed := push_payment record d) in *.
    set (closed := if leb (remainingAmount pushed) (lit 0.01)
                   then set_paid now pushed else pushed) in *.
    assert (Hpush : remainingAmount pushed
                    = Math_max zero (sub (amount d) (add (totalPaid d) payment)))
      by (subst pushed; apply remainingAmount_push).
    assert (Hclosed : partialPayments closed = partialPayments d ++ [record]
                      /\ amount closed = amount d
                      /\ remainingAmount closed = remainingAmount pushed)
      by (subst closed; destruct (leb (remainingAmount pushed) (lit 0.01));
          repeat split; reflexivity).
    destruct Hclosed as (Cp & Ca & Cr).
    destruct (pre_save_keeps64 now closed) as (Sa & Sp & Si & St).
    set (result := fst (if valid pushed
                        then (set_isNew false (pre_save now closed),
                              Return tt)
                        else (closed, Throw (ValidationError "Debt")))).
    assert (Hres : partialPayments result = partialPayments closed
                   /\ amount result = amount closed
                   /\ isPaid result = isPaid closed
                   /\ paidAt result = paidAt closed).
    { subst result. destruct (valid pushed); cbn [fst];
        [|repeat split; reflexivity].
      cbn [partialPayments amount isPaid paidAt set_isNew].
      repeat split; assumption. }
    destruct Hres as (Rp & Ra & Ri & Rt).
    assert (Rr : remainingAmount result = remainingAmount pushed)
      by (unfold remainingAmount at 1; rewrite Rp, Ra; exact Cr).
    rewrite E. fold result.
    split; [rewrite Rp; exact Cp|]. split; [rewrite Ra; exact Ca|].
    split; [rewrite Rr; exact Hpush|].
    split; [|split].
    + rewrite Rr, Ri, Rt. intros Hsmall. subst closed. rewrite Hsmall.
      split; reflexivity.
    + rewrite Rr, Ri, Rt. intros Hlarge. subst closed. rewrite Hlarge.
      split; reflexivity.
    + intros Hvalid.
      assert (Hv : valid pushed = payment_valid record)
        by (subst pushed; apply valid_push; exact Hvalid).
      rewrite Hv. unfold payment_valid. cbn [pay_amount pay_note record].
      destruct (leb zero payment) eqn:Epos, (String.length note <=? 200)%nat eqn:Elen;
        cbn [andb snd].
      * split; [intros _|intros _; eexists; reflexivity].
        split; [destruct payment; [reflexivity | reflexivity
                                  | discriminate Epos | reflexivity]
               | apply Nat.leb_le; exact Elen].
      * split; [intros [a Ha]; discriminate Ha|].
        intros [_ Hlen]. apply Nat.leb_le in Hlen. congruence.
      * split; [intros [a Ha]; discriminate Ha|].
        intros [Hnan _].
        rewrite (positive_when_not_below payment H0 Hnan) in Epos.
        discriminate Epos.
      * split; [intros [a Ha]; discriminate Ha|].
        intros [_ Hlen]. apply Nat.leb_le in Hlen. congruence.
Qed.

End PaymentClaim.

(** ** Sequences of payments, closing a debt *)

Section Closing.

Import Binary64 Double Double.Debt.

(** What a call of [addPartialPayment] keeps, whether it returns or
    throws. *)
Lemma addPartialPayment_keeps (now : Date) (payment : number) (note : string)
    (d : t) :
  let d' := fst (addPartialPayment now payment note None d) in
  amount d' = amount d
  /\ (exists added, partialPayments d' = partialPayments d ++ added)
  /\ (isPaid d = true -> isPaid d' = true).
Proof.
  intros d'. subst d'.
  destruct (addPartialPayment_cases now payment note None d)
    as [[_ E] | [(_ & _ & E) | (_ & _ & E)]]; rewrite E; clear E; cbn [fst].
  - split; [reflexivity|]. split; [exists []; symmetry; apply app_nil_r|].
    intros H; exact H.
  - split; [reflexivity|]. split; [exists []; symmetry; apply app_nil_r|].
    intros H; exact H.
  - set (pushed := push_payment (mkPayment payment note None now) d).
    set (closed := if leb (remainingAmount pushed) (lit 0.01)
                   then set_paid now pushed else pushed).
    assert (Hclosed : amount closed = amount d
                      /\ partialPayments closed
                         = partialPayments d ++ [mkPayment payment note None now]
                      /\ (isPaid d = true -> isPaid closed = true)).
    { subst closed. destruct (leb (remainingAmount pushed) (lit 0.01));
        repeat split; try reflexivity. intros H; exact H. }
    destruct Hclosed as (Ca & Cp & Ci).
    destruct (pre_save_keeps64 now closed) as (Sa & Sp & Si & _).
    destruct (valid pushed); cbn [fst amount partialPayments isPaid set_isNew].
    + rewrite Sa, Sp, Si. split; [exact Ca|].
      split; [eexists; exact Cp | exact Ci].
    + split; [exact Ca|]. split; [eexists; exact Cp | exact Ci].
Qed.

Lemma gtb_leb (x : number) : gtb x zero = true -> leb zero x = true.
Proof.
  destruct x as [s|s| |s m e]; try destruct s; try discriminate; reflexivity.
Qed.

(** The two ways through [markAsPaid]. *)
Lemma markAsPaid_cases (now : Date) (method proof : string)
    (this : DebtSettlement.t) :
  let d := DebtSettlement.doc this in
  let closed :=
    if gtb (remainingAmount d) zero
    then push_payment (mkPayment (remainingAmount d) "Final payment" None now)
                      (set_paid now d)
    else set_paid now d in
  DebtSettlement.markAsPaid now method proof this =
    if DebtSettlement.valid (DebtSettlement.mk closed method proof)
    then (DebtSettlement.mk (set_isNew false (pre_save now closed)) method proof,
          Return tt)
    else (DebtSettlement.mk closed method proof, Throw (ValidationError "Debt")).
Proof.
  unfold DebtSettlement.markAsPaid, DebtSettlement.save, bind, modify, get,
    when, ret, throw.
  cbn [fst snd DebtSettlement.doc].
  change (remainingAmount (set_paid now (DebtSettlement.doc this)))
    with (remainingAmount (DebtSettlement.doc this)).
  destruct (gtb (remainingAmount (DebtSettlement.doc this)) zero);
    cbn [fst snd]; destruct (DebtSettlement.valid _); reflexivity.
Qed.

End Closing.

(** X1: [markAsPaid] marks the debt in memory paid, stamps [paidAt],
    records the method and the proof, keeps the amount, and appends a
    payment "Final payment" of the remaining amount exactly when the
    remaining amount is above 0; on a debt that passes the validators its
    [save] returns exactly when the method is one of cash, bank_transfer,
    promptpay and other. *)
Theorem markAsPaid_closes_debt
    (now : Date) (method proof : string) (this : Double.DebtSettlement.t) :
  let result := Double.DebtSettlement.markAsPaid now method proof this in
  let d := Double.DebtSettlement.doc this in
  let d' := Double.DebtSettlement.doc (fst result) in
  Double.Debt.isPaid d' = true
  /\ Double.Debt.paidAt d' = Some now
  /\ Double.DebtSettlement.settlementMethod (fst result) = method
  /\ Double.DebtSettlement.settlementProofUrl (fst result) = proof
  /\ Double.Debt.amount d' = Double.Debt.amount d
  /\ Double.Debt.partialPayments d'
     = Double.Debt.partialPayments d
       ++ (if Binary64.gtb (Double.Debt.remainingAmount d) Binary64.zero
           then [Double.Debt.mkPayment (Double.Debt.remainingAmount d)
                   "Final payment" None now]
           else [])
  /\ (Double.Debt.valid d = true ->
        (snd result = Return tt
         <-> method ∈ Double.DebtSettlement.settlementMethods)).
Proof.
  intros result d d'. subst result d'.
  rewrite markAsPaid_cases. cbv zeta. fold d.
  set (closed := if Binary64.gtb (Double.Debt.remainingAmount d) Binary64.zero
                 then _ else _).
  assert (Hclosed :
    Double.Debt.isPaid closed = true
    /\ Double.Debt.paidAt closed = Some now
    /\ Double.Debt.amount closed = Double.Debt.amount d
    /\ Double.Debt.partialPayments closed
       = Double.Debt.partialPayments d
         ++ (if Binary64.gtb (Double.Debt.remainingAmount d) Binary64.zero
             then [Double.Debt.mkPayment (Double.Debt.remainingAmount d)
                     "Final payment" None now]
             else [])
    /\ (Double.Debt.valid d = true -> Double.Debt.valid closed = true)).
  { subst closed.
    destruct (Binary64.gtb (Double.Debt.remainingAmount d) Binary64.zero) eqn:Egt.
    - split; [reflexivity|]. split; [reflexivity|]. split; [reflexivity|].
      split; [reflexivity|]. intros Hv.
      rewrite valid_push by exact Hv.
      unfold Double.Debt.payment_valid. cbn [Double.Debt.pay_amount
                                             Double.Debt.pay_note].
      rewrite (gtb_leb _ Egt). reflexivity.
    - split; [reflexivity|]. split; [reflexivity|]. split; [reflexivity|].
      split; [symmetry; apply app_nil_r|]. intros Hv. exact Hv. }
  destruct Hclosed as (Ci & Ct & Ca & Cp & Cv).
  destruct (pre_save_keeps64 now closed) as (Sa & Sp & Si & St).
  unfold Double.DebtSettlement.valid.
  cbn [Double.DebtSettlement.doc Double.DebtSettlement.settlementMethod].
  destruct (Double.Debt.valid closed) eqn:Ev; cbn [andb].
  - destruct (bool_decide (method ∈ Double.DebtSettlement.settlementMethods))
      eqn:Em; cbn [fst snd Double.DebtSettlement.doc
                   Double.DebtSettlement.settlementMethod
                   Double.DebtSettlement.settlementProofUrl
                   Double.Debt.isPaid Double.Debt.paidAt Double.Debt.amount
                   Double.Debt.partialPayments Double.Debt.set_isNew].
    + apply bool_decide_eq_true in Em. rewrite Si, St, Sa, Sp.
      split; [exact Ci|]. split; [exact Ct|]. split; [reflexivity|].
      split; [reflexivity|]. split; [exact Ca|]. split; [exact Cp|].
      intros _. split; [intros _; exact Em | reflexivity].
    + apply bool_decide_eq_false in Em.
      split; [exact Ci|]. split; [exact Ct|]. split; [reflexivity|].
      split; [reflexivity|]. split; [exact Ca|]. split; [exact Cp|].
      intros _. split; [intros H; discriminate H | intros H; contradiction].
  - cbn [fst snd Double.DebtSettlement.doc
         Double.DebtSettlement.settlementMethod
         Double.DebtSettlement.settlementProofUrl].
    split; [exact Ci|]. split; [exact Ct|]. split; [reflexivity|].
    split; [reflexivity|]. split; [exact Ca|]. split; [exact Cp|].
    intros Hv. pose proof (Cv Hv) as Hv'. congruence.
Qed.

(** After [markAsPaid] something can remain in doubles: on a debt of 0.21
    with 0.05 paid the final payment leaves a remaining amount above 0. *)
Example final_payment_can_leave_a_rest :
  Binary64.gtb
    (Double.Debt.remainingAmount
       (Double.DebtSettlement.doc
          (fst (Double.DebtSettlement.markAsPaid 5 "cash" ""
                  (Double.DebtSettlement.mk (owed 2 1 0.21 [0.05]) "" "")))))
    Binary64.zero
  = true.
Proof. vm_compute. reflexivity. Qed.

(** X2: over any sequence of calls of [addPartialPayment], accepted or
    refused, the amount of the debt stays, the payments made so far stay at
    the head of the list of payments, a debt that is marked paid stays
    marked paid, and the remaining amount is never below 0.  The payments
    can add up to more than the amount: 0.04 and 0.07 on a debt of 0.11 are
    both accepted and total 0.11000000000000001. *)
Theorem payments_only_accumulate
    (now : Date) (calls : list (Binary64.number * string)) (d : Double.Debt.t) :
  let d' := payAll now calls d in
  Double.Debt.amount d' = Double.Debt.amount d
  /\ (exists added,
        Double.Debt.partialPayments d' = Double.Debt.partialPayments d ++ added)
  /\ (Double.Debt.isPaid d = true -> Double.Debt.isPaid d' = true)
  /\ Binary64.ltb (Double.Debt.remainingAmount d') Binary64.zero = false
  /\ Binary64.gtb
       (Double.Debt.totalPaid
          (payAll now [(Binary64.lit 0.04, ""); (Binary64.lit 0.07, "")]%string
                  (owed 2 1 0.11 [])))
       (Binary64.lit 0.11)
     = true.
Proof.
  intros d'. subst d'.
  split; [|split; [|split; [|split; [apply Math_max_zero
                                    | vm_compute; reflexivity]]]];
    revert d; induction calls as [|call calls IH]; intros d;
    unfold payAll in *; cbn [fold_left].
  - reflexivity.
  - rewrite IH.
    exact (proj1 (addPartialPayment_keeps now (fst call) (snd call) d)).
  - exists []. symmetry. apply app_nil_r.
  - destruct (IH (fst (Double.Debt.addPartialPayment now (fst call) (snd call)
                         None d))) as [added2 E2].
    destruct (addPartialPayment_keeps now (fst call) (snd call) d)
      as (_ & [added1 E1] & _).
    exists (added1 ++ added2). rewrite E2, E1, app_assoc. reflexivity.
  - intros H; exact H.
  - intros H. apply IH.
    exact (proj2 (proj2 (addPartialPayment_keeps now (fst call) (snd call) d)) H).
Qed.

(** ** Netting of mutual debts *)

Section Netting.

Import Binary64 Double Double.Debt.

Variable now : Date.

(** A turn of the loop, written out. *)
Lemma optimizeStep_cases (m : gmap (ObjectId * ObjectId) (nat * t))
    (coll : list t) (cur : nat * t) :
  optimizeStep now cur (m, coll) =
    match m !! key (creditor (snd cur)) (debtor (snd cur)) with
    | None =>
        ((<[key (debtor (snd cur)) (creditor (snd cur)) := cur]> m, coll),
         Return tt)
    | Some mutual =>
        let k2 := key (creditor (snd cur)) (debtor (snd cur)) in
        let net := sub (amount (snd cur)) (amount (snd mutual)) in
        if gtb net zero then
          if valid (set_amount net (snd cur))
          then ((delete k2 m,
                 alter (netOff now "Netted off with mutual debt") (fst mutual)
                   (alter (set_amount net) (fst cur) coll)),
                Return tt)
          else ((m, coll), Throw (ValidationError "Debt"))
        else if ltb net zero then
          if valid (netOff now "Netted off with mutual debt" (snd cur))
          then ((delete k2 m,
                 alter (netOff now "Netted off with mutual debt") (fst cur)
                   (alter (set_amount (Math_abs net)) (fst mutual) coll)),
                Return tt)
          else ((m, alter (set_amount (Math_abs net)) (fst mutual) coll),
                Throw (ValidationError "Debt"))
        else
          if valid (netOff now "Netted off with equal mutual debt" (snd cur))
          then ((delete k2 m,
                 alter (netOff now "Netted off with equal mutual debt")
                   (fst mutual)
                   (alter (netOff now "Netted off with equal mutual debt")
                      (fst cur) coll)),
                Return tt)
          else ((m, coll), Throw (ValidationError "Debt"))
    end.
Proof.
  unfold optimizeStep. unfold bind at 1. unfold get. cbn [fst snd].
  destruct (m !! key (creditor (snd cur)) (debtor (snd cur))) as [mutual|];
    [|reflexivity].
  cbv zeta.
  destruct (gtb _ zero); [|destruct (ltb _ zero)];
    unfold bind, saveLoaded, findByIdAndUpdate, modify, throw; cbn [fst snd];
    destruct (valid _); reflexivity.
Qed.

Lemma forEach_cons {S A} (body : A -> Method S unit) (x : A) (xs : list A)
    (st : S) :
  forEach body (x :: xs) st =
    match body x st with
    | (st', Return _) => forEach body xs st'
    | (st', Throw e) => (st', Throw e)
    end.
Proof. reflexivity. Qed.


Variables (a b : ObjectId) (p q : nat).



End Netting.

Section NettingPair.

Import Binary64 Double Double.Debt.

Variables (now : Date) (g : ObjectId).


(** A document found is stored where its number says. *)
Lemma find_from_elem (P : t -> Prop) `{forall d, Decision (P d)}
    (pre l post : list t) (k : nat) (d : t) :
  (k, d) ∈ find_from P (length pre) l ->
  (pre ++ l ++ post) !! k = Some d /\ P d
  /\ (length pre <= k < length pre + length l)%nat.
Proof.
  revert pre. induction l as [|x l IH]; intros pre Hin; cbn [find_from] in Hin.
  - apply elem_of_nil in Hin. destruct Hin.
  - assert (Hrest : (k, d) ∈ find_from P (S (length pre)) l ->
                    (pre ++ (x :: l) ++ post) !! k = Some d /\ P d
                    /\ (length pre <= k < length pre + length (x :: l))%nat).
    { intros Hin'. specialize (IH (pre ++ [x])).
      rewrite length_app in IH. cbn [length] in IH.
      rewrite Nat.add_1_r in IH. specialize (IH Hin').
      rewrite <- app_assoc in IH. cbn [app] in IH.
      destruct IH as (Hk & HP & Hlo & Hhi). cbn [app length].
      repeat split; [exact Hk | exact HP | lia | lia]. }
    destruct (decide (P x)) as [HP | HP]; [|exact (Hrest Hin)].
    apply elem_of_cons in Hin. destruct Hin as [[= -> ->] | Hin];
      [|exact (Hrest Hin)].
    cbn [app length]. rewrite list_lookup_middle by reflexivity.
    repeat split; [exact HP | lia | lia].
Qed.


End NettingPair.



Section NettingRun.

Import Binary64 Double Double.Debt.



(** The run of the loop and the run of [optimizeDebts]. *)
Lemma optimizeDebts_run (now : Date) (g : ObjectId) (coll : list t) :
  let r := forEach (optimizeStep now) (find_from (unpaidIn g) 0 coll) (∅, coll) in
  fst (optimizeDebts now g coll) = snd (fst r)
  /\ (snd (optimizeDebts now g coll) = Return true <-> snd r = Return tt)
  /\ (forall e, snd r = Throw e -> snd (optimizeDebts now g coll) = Throw e).
Proof.
  intros r. subst r. unfold optimizeDebts.
  destruct (forEach _ _ _) as [st [[] | e]]; cbn [fst snd].
  - split; [reflexivity|]. split; [split; reflexivity|].
    intros e He. discriminate He.
  - split; [reflexivity|]. split; [split; discriminate|].
    intros e' [= <-]. reflexivity.
Qed.







End NettingRun.

Section NettingClaim.

Import Binary64 Double Double.Debt.





(** Two debts of 50 against each other are both paid afterwards; a debt
    of 0.03 met after one of 0.02 the other way is not netted: the
    difference is 0.009999999999999998 in doubles, the [save] of the debt
    is rejected and the run is aborted. *)
Example equal_mutual_debts_both_paid :
  map isPaid (fst (optimizeDebts 5 7 [owed 1 2 50 []; owed 2 1 50 []]))
  = [true; true]
  /\ optimizeDebts 5 7 [owed 2 1 0.02 []; owed 1 2 0.03 []]
     = ([owed 2 1 0.02 []; owed 1 2 0.03 []], Throw (ValidationError "Debt")).
Proof. split; vm_compute; reflexivity. Qed.

End NettingClaim.

(** ** What netting keeps *)

Section NettingKeeps.

Import Binary64 Double Double.Debt.

Lemma map_alter_same {B} (f : t -> B) (h : t -> t) (l : list t) (i : nat) :
  (forall d, f (h d) = f d) -> map f (alter h i l) = map f l.
Proof.
  intros Hsame. revert i. induction l as [|d l IH]; intros [|i];
    cbn; try reflexivity; f_equal; auto.
Qed.

Variables (loaded : list nat) (coll : list t).

Lemma framed_alter (m : gmap (ObjectId * ObjectId) (nat * t)) (c : list t)
    (h : t -> t) (i : nat) :
  (forall d, parties (h d) = parties d) -> i ∈ loaded ->
  framed loaded coll (m, c) -> framed loaded coll (m, alter h i c).
Proof.
  intros Hsame Hi (Hm & Hlen & Hparties & Hrest).
  unfold framed. cbn [fst snd] in *.
  split; [exact Hm|]. split; [rewrite length_alter; exact Hlen|].
  split; [rewrite map_alter_same by exact Hsame; exact Hparties|].
  intros k Hk. rewrite list_lookup_alter_ne; [exact (Hrest k Hk)|].
  intros ->. exact (Hk Hi).
Qed.

Lemma framed_delete (m : gmap (ObjectId * ObjectId) (nat * t)) (c : list t)
    (k : ObjectId * ObjectId) :
  framed loaded coll (m, c) -> framed loaded coll (delete k m, c).
Proof.
  intros (Hm & Hrest). unfold framed. cbn [fst snd] in *. split; [|exact Hrest].
  intros k' v Hk. apply lookup_delete_Some in Hk. destruct Hk as [_ Hk].
  exact (Hm k' v Hk).
Qed.

(** A turn on a loaded debt keeps the frame, whether it returns or not. *)
Lemma optimizeStep_framed (now : Date) (st : Netting) (cur : nat * t) :
  fst cur ∈ loaded -> framed loaded coll st ->
  framed loaded coll (fst (optimizeStep now cur st)).
Proof.
  intros Hcur Hst. destruct st as [m c].
  rewrite optimizeStep_cases.
  destruct (m !! key (creditor (snd cur)) (debtor (snd cur)))
    as [mutual|] eqn:Emutual.
  - assert (Hmutual : fst mutual ∈ loaded)
      by (destruct Hst as [Hm _]; exact (Hm _ _ Emutual)).
    cbv zeta.
    destruct (gtb _ zero); [|destruct (ltb _ zero)]; destruct (valid _);
      cbn [fst]; try exact Hst;
      try apply framed_delete;
      repeat (apply framed_alter; [reflexivity | assumption |]);
      exact Hst.
  - cbn [fst]. destruct Hst as (Hm & Hrest). unfold framed.
    cbn [fst snd] in *. split; [|exact Hrest]. intros k v Hk. apply lookup_insert_Some in Hk.
    destruct Hk as [[_ <-] | [_ Hk]]; [exact Hcur | exact (Hm k v Hk)].
Qed.

Lemma forEach_framed (now : Date) (turns : list (nat * t)) (st : Netting) :
  Forall (fun cur => fst cur ∈ loaded) turns -> framed loaded coll st ->
  framed loaded coll (fst (forEach (optimizeStep now) turns st)).
Proof.
  intros Hturns. revert st.
  induction Hturns as [|cur turns Hcur _ IH]; intros st Hst; [exact Hst|].
  rewrite forEach_cons.
  pose proof (optimizeStep_framed now st cur Hcur Hst) as Hstep.
  destruct (optimizeStep now cur st) as [st1 [u | e]]; cbn [fst] in *.
  - apply IH. exact Hstep.
  - exact Hstep.
Qed.

End NettingKeeps.

Section NettingFrame.

Import Binary64 Double Double.Debt.

(** X19: a run of [optimizeDebts], whether it returns or is aborted by a
    rejected [save], keeps the number of debts and, of every debt, the
    debtor, the creditor, the expense, the group, the original amount, the
    payments and the active flag; a debt of another group, a paid debt and
    an inactive debt are left exactly as they were, so no paid debt is ever
    reopened. *)
Theorem optimizeDebts_frame (now : Date) (g : ObjectId) (coll : list t) :
  let after := fst (optimizeDebts now g coll) in
  length after = length coll
  /\ map parties after = map parties coll
  /\ (forall j d, coll !! j = Some d -> ~ unpaidIn g d ->
                  after !! j = Some d)
  /\ (forall j d, coll !! j = Some d -> isPaid d = true ->
                  after !! j = Some d).
Proof.
  intros after. subst after.
  destruct (optimizeDebts_run now g coll) as (Efst & _). rewrite Efst.
  set (turns := find_from (unpaidIn g) 0 coll).
  set (loaded := map fst turns).
  assert (Hstart : framed loaded coll (∅, coll)).
  { split; [|repeat split; reflexivity]. cbn [fst].
    intros k v Hk. rewrite lookup_empty in Hk. discriminate Hk. }
  assert (Hturns : Forall (fun cur => fst cur ∈ loaded) turns).
  { apply Forall_forall. intros cur Hin. subst loaded.
    apply list_elem_of_fmap. exists cur. split; [reflexivity | exact Hin]. }
  destruct (forEach_framed loaded coll now turns _ Hturns Hstart)
    as (_ & Hlen & Hparties & Hrest).
  assert (Hout : forall j d, coll !! j = Some d -> ~ unpaidIn g d ->
                   j ∉ loaded).
  { intros j d Hj Hd Hin. subst loaded.
    apply list_elem_of_fmap in Hin. destruct Hin as ([k d'] & Hk & Hin).
    cbn [fst] in Hk. subst k.
    apply (find_from_elem (unpaidIn g) [] coll []) in Hin.
    cbn [app] in Hin. rewrite app_nil_r in Hin.
    destruct Hin as (Hj' & Hd' & _). rewrite Hj in Hj'.
    injection Hj' as <-. exact (Hd Hd'). }
  split; [exact Hlen|]. split; [exact Hparties|]. split.
  - intros j d Hj Hd. rewrite (Hrest j (Hout j d Hj Hd)). exact Hj.
  - intros j d Hj Hd. rewrite (Hrest j); [exact Hj|]. apply (Hout j d Hj).
    intros (_ & Hp & _). rewrite Hd in Hp. discriminate Hp.
Qed.

End NettingFrame.

(** * Further properties *)

(** ** Closing a debt *)

(** The two ways through [markAsPaid]. *)
Lemma markAsPaid_shape
    (now : Date) (method proof : string) (this : DebtSettlement.t) :
  let closed :=
    DebtSettlement.mk (closedDebt now (DebtSettlement.doc this)) method proof in
  DebtSettlement.markAsPaid now method proof this =
    if DebtSettlement.valid closed
    then (DebtSettlement.mk
            (Debt.set_isNew false
               (Debt.pre_save now (closedDebt now (DebtSettlement.doc this))))
            method proof, Return tt)
    else (closed, Throw (ValidationError "Debt")).
Proof.
  unfold DebtSettlement.markAsPaid, DebtSettlement.save, bind, modify, get,
    when, ret, throw, closedDebt.
  cbn [fst snd DebtSettlement.doc].
  change (Debt.remainingAmount (Debt.set_paid now (DebtSettlement.doc this)))
    with (Debt.remainingAmount (DebtSettlement.doc this)).
  destruct (gtb (Debt.remainingAmount (DebtSettlement.doc this)) 0);
    cbn [fst snd]; destruct (DebtSettlement.valid _); reflexivity.
Qed.

(** What [markAsPaid] leaves of the payments and of the original amount. *)
Lemma markAsPaid_doc
    (now : Date) (method proof : string) (this : DebtSettlement.t) :
  let d' := DebtSettlement.doc
              (fst (DebtSettlement.markAsPaid now method proof this)) in
  Debt.partialPayments d'
    = Debt.partialPayments (closedDebt now (DebtSettlement.doc this))
  /\ Debt.originalAmount d'
     = Debt.originalAmount (closedDebt now (DebtSettlement.doc this)).
Proof.
  intros d'. subst d'. rewrite markAsPaid_shape. cbv zeta.
  destruct (DebtSettlement.valid _); cbn [fst DebtSettlement.doc];
    [|split; reflexivity].
  cbn [Debt.partialPayments Debt.originalAmount Debt.set_isNew].
  unfold Debt.pre_save, Debt.calculateNextReminder.
  repeat match goal with |- context [if ?b then _ else _] => destruct b end;
    split; reflexivity.
Qed.

Lemma closedDebt_fields (now : Date) (d : Debt.t) :
  Debt.isPaid (closedDebt now d) = true
  /\ Debt.paidAt (closedDebt now d) = Some now
  /\ Debt.amount (closedDebt now d) = Debt.amount d
  /\ Debt.originalAmount (closedDebt now d) = Debt.originalAmount d
  /\ Debt.partialPayments (closedDebt now d) =
       Debt.partialPayments d
       ++ (if gtb (Debt.remainingAmount d) 0
           then [Debt.mkPayment (Debt.remainingAmount d) "Final payment" None now]
           else []).
Proof.
  unfold closedDebt. destruct (gtb (Debt.remainingAmount d) 0);
    cbn [Debt.isPaid Debt.paidAt Debt.amount Debt.originalAmount
         Debt.partialPayments Debt.push_payment Debt.set_paid];
    repeat split; try reflexivity.
  symmetry. apply app_nil_r.
Qed.

Lemma closedDebt_totalPaid (now : Date) (d : Debt.t) :
  Debt.totalPaid (closedDebt now d) == Debt.totalPaid d + Debt.remainingAmount d.
Proof.
  unfold closedDebt. destruct (gtb (Debt.remainingAmount d) 0) eqn:E.
  - rewrite totalPaid_push. reflexivity.
  - apply gtb_le in E. pose proof (remainingAmount_nonneg d).
    change (Debt.totalPaid (Debt.set_paid now d)) with (Debt.totalPaid d). lra.
Qed.

(** ** Reminders, days overdue, progress *)

Lemma pre_save_reminders (now : Date) (d : Debt.t) (next : Date) :
  Debt.nextReminderDate d = Some next ->
  Debt.nextReminderDate (Debt.pre_save now d) = Some next
  /\ Debt.reminderCount (Debt.pre_save now d) = Debt.reminderCount d
  /\ Debt.lastReminderSent (Debt.pre_save now d) = Debt.lastReminderSent d
  /\ Debt.originalAmount (Debt.pre_save now d) = Debt.originalAmount d.
Proof.
  intros Hnext. unfold Debt.pre_save, Debt.calculateNextReminder.
  destruct d as [db cr ex gr am oa ip pa pp rc ls nr ia dd no st nw].
  cbn in Hnext. subst nr.
  destruct nw, dd as [due|]; cbn; repeat split; reflexivity.
Qed.

(** X3: [sendReminder] counts the reminder, stamps it and sets the next
    reminder 24 hours ahead, whatever date was there; it leaves the payment
    state alone; its [save] returns exactly when the debt passes the
    validators; the reminded debt is not selected by [findNeedingReminders]
    before 24 hours have passed, and is selected from then on as long as it
    is unpaid and active. *)
Theorem sendReminder_schedules_next (now : Date) (d : Debt.t) :
  let d' := fst (Debt.sendReminder now d) in
  (snd (Debt.sendReminder now d) = Return tt <-> Debt.valid d = true)
  /\ Debt.reminderCount d' = S (Debt.reminderCount d)
  /\ Debt.lastReminderSent d' = Some now
  /\ Debt.nextReminderDate d' = Some (now + 24 * 60 * 60 * 1000)%Z
  /\ Debt.isPaid d' = Debt.isPaid d
  /\ Debt.isActive d' = Debt.isActive d
  /\ Debt.amount d' = Debt.amount d
  /\ Debt.partialPayments d' = Debt.partialPayments d
  /\ (forall (later : Date) (coll : list Debt.t),
        d' ∈ coll ->
        (d' ∈ Debt.findNeedingReminders later coll <->
           Debt.isPaid d = false /\ Debt.isActive d = true
           /\ (now + 24 * 60 * 60 * 1000 <= later)%Z)).
Proof.
  intros d'.
  set (reminded := Debt.calculateNextReminder now (Debt.set_reminded now d)).
  assert (Hshape : Debt.sendReminder now d = Debt.save now reminded)
    by reflexivity.
  assert (Hvalid : Debt.valid reminded = Debt.valid d) by reflexivity.
  assert (Hnext : Debt.nextReminderDate reminded
                  = Some (now + 24 * 60 * 60 * 1000)%Z) by reflexivity.
  destruct (pre_save_reminders now reminded _ Hnext) as (Hn & Hc & Hl & _).
  destruct (pre_save_keeps now reminded) as (Ha & Hp & Hi & _).
  pose proof (pre_save_isActive now reminded) as Hact.
  assert (Hfields :
    (snd (Debt.sendReminder now d) = Return tt <-> Debt.valid d = true)
    /\ Debt.reminderCount d' = S (Debt.reminderCount d)
    /\ Debt.lastReminderSent d' = Some now
    /\ Debt.nextReminderDate d' = Some (now + 24 * 60 * 60 * 1000)%Z
    /\ Debt.isPaid d' = Debt.isPaid d
    /\ Debt.isActive d' = Debt.isActive d
    /\ Debt.amount d' = Debt.amount d
    /\ Debt.partialPayments d' = Debt.partialPayments d).
  { subst d'. rewrite Hshape.
    destruct (save_cases now reminded) as [[Hv E] | [Hv E]];
      rewrite E; rewrite Hvalid in Hv; cbn [fst snd].
    - split; [split; [intros _; exact Hv | reflexivity]|].
      cbn [Debt.reminderCount Debt.lastReminderSent Debt.nextReminderDate
           Debt.isPaid Debt.isActive Debt.amount Debt.partialPayments
           Debt.set_isNew].
      rewrite Hc, Hl, Hn, Hi, Hact, Ha, Hp. repeat split; reflexivity.
    - split; [split; [discriminate | intros Hv'; congruence]|].
      repeat split; reflexivity. }
  destruct Hfields as (F0 & F1 & F2 & F3 & F4 & F5 & F6 & F7).
  split; [exact F0|]. split; [exact F1|]. split; [exact F2|].
  split; [exact F3|]. split; [exact F4|]. split; [exact F5|].
  split; [exact F6|]. split; [exact F7|].
  intros later coll Hin. rewrite findNeedingReminders_elem, F3, F4, F5. split.
  - intros (_ & Hpaid & Hactive & [Hnone | (next & Hsome & Hle)]);
      [discriminate|]. injection Hsome as <-. repeat split; assumption.
  - intros (Hpaid & Hactive & Hle). repeat split; try assumption.
    right. eexists. split; [reflexivity | exact Hle].
Qed.

Lemma per_day (x : Q) : x / inject_Z day == x * (1 # 86400000).
Proof. unfold Qdiv. apply Qmult_comp; reflexivity. Qed.

(** X4: [daysOverdue] is 0 for a debt that is not overdue; for an overdue
    debt it is the number of days begun since the due date: at least 1, and
    the least [n] with [now <= dueDate + n] days. *)
Theorem daysOverdue_counts_begun_days (now : Date) (d : Debt.t) :
  (Debt.isOverdue now d = false -> DebtSettlement.daysOverdue now d = 0%Z)
  /\ (forall due, Debt.dueDate d = Some due -> Debt.isOverdue now d = true ->
        let n := DebtSettlement.daysOverdue now d in
        (1 <= n)%Z
        /\ (due + (n - 1) * day < now)%Z
        /\ (now <= due + n * day)%Z).
Proof.
  split.
  - intros H. unfold DebtSettlement.daysOverdue. rewrite H. reflexivity.
  - intros due Hdue Hover n. subst n. unfold DebtSettlement.daysOverdue.
    rewrite Hover, Hdue. cbn [negb]. fold day.
    apply isOverdue_true in Hover. destruct Hover as (due' & Hd & Hlt & _).
    rewrite Hdue in Hd. injection Hd as <-.
    pose proof (Qle_ceiling (inject_Z (now - due) / inject_Z day)) as Hup.
    pose proof (Qceiling_lt (inject_Z (now - due) / inject_Z day)) as Hlo.
    set (n := Qceiling (inject_Z (now - due) / inject_Z day)) in *.
    rewrite per_day in Hup, Hlo.
    unfold Z.sub in Hlo at 1. rewrite inject_Z_plus, inject_Z_opp in Hlo.
    change (inject_Z 1) with 1 in Hlo.
    assert (Hpos : 0 < inject_Z (now - due))
      by (change 0 with (inject_Z 0); rewrite <- Zlt_Qlt; lia).
    assert (H1 : inject_Z (now - due) <= inject_Z (n * day)).
    { rewrite inject_Z_mult. change (inject_Z day) with (86400000 # 1).
      revert Hup. generalize (inject_Z (now - due)), (inject_Z n). intros; lra. }
    assert (H2 : inject_Z ((n - 1) * day) < inject_Z (now - due)).
    { rewrite inject_Z_mult. unfold Z.sub at 1.
      rewrite inject_Z_plus, inject_Z_opp.
      change (inject_Z 1) with 1. change (inject_Z day) with (86400000 # 1).
      revert Hlo. generalize (inject_Z (now - due)), (inject_Z n). intros; lra. }
    assert (H3 : 0 < inject_Z n).
    { revert Hup Hpos. generalize (inject_Z (now - due)), (inject_Z n).
      intros; lra. }
    rewrite <- Zle_Qle in H1. rewrite <- Zlt_Qlt in H2.
    change 0 with (inject_Z 0) in H3. rewrite <- Zlt_Qlt in H3.
    repeat split; lia.
Qed.

Lemma daysOverdue_counts_begun_days_witness :
  DebtSettlement.daysOverdue 700000001 reminded_debt = 2%Z.
Proof.
  assert (Hdue : Debt.dueDate reminded_debt = Some 604800000%Z) by reflexivity.
  assert (Hover : Debt.isOverdue 700000001 reminded_debt = true) by reflexivity.
  destruct (proj2 (daysOverdue_counts_begun_days 700000001 reminded_debt)
              604800000%Z Hdue Hover) as (H1 & H2 & H3).
  unfold day in H2, H3. lia.
Defined.

Lemma round_percent (r : Q) :
  0 <= r -> r <= 1 ->
  (0 <= Math_round (r * 100) <= 100)%Z /\ (r == 1 -> Math_round (r * 100) = 100%Z).
Proof.
  intros H0 H1. unfold Math_round.
  assert (Hlo : (Qfloor 0 <= Qfloor (r * 100 + (1 # 2)))%Z)
    by (apply Qfloor_resp_le; lra).
  assert (Hhi : (Qfloor (r * 100 + (1 # 2)) <= Qfloor (201 # 2))%Z)
    by (apply Qfloor_resp_le; lra).
  change (Qfloor 0) with 0%Z in Hlo. change (Qfloor (201 # 2)) with 100%Z in Hhi.
  split; [lia|]. intros E.
  assert (Hge : (Qfloor 100 <= Qfloor (r * 100 + (1 # 2)))%Z)
    by (apply Qfloor_resp_le; rewrite E; lra).
  change (Qfloor 100) with 100%Z in Hge. lia.
Qed.

(** X5: for a debt with a positive original amount and payments between 0
    and that amount, [paymentProgress] is a percentage between 0 and 100, and
    100 when the payments reach the original amount; it is 100 after
    [markAsPaid] when the original amount is the amount and the debt was not
    overpaid. *)
Theorem paymentProgress_bounds
    (now : Date) (method proof : string) (d : Debt.t) (original : Q) :
  Debt.originalAmount d = Some original -> 0 < original ->
  0 <= Debt.totalPaid d -> Debt.totalPaid d <= original ->
  (exists p, DebtSettlement.paymentProgress d = Some p
             /\ (0 <= p <= 100)%Z
             /\ (Debt.totalPaid d == original -> p = 100%Z))
  /\ (Debt.amount d == original ->
        DebtSettlement.paymentProgress
          (DebtSettlement.doc
             (fst (DebtSettlement.markAsPaid now method proof
                     (DebtSettlement.mk d "" ""))))
        = Some 100%Z).
Proof.
  intros Horig Hpos H0 H1.
  assert (Hne : Qeq_bool original 0 = false).
  { destruct (Qeq_bool original 0) eqn:E; [|reflexivity].
    apply Qeq_bool_iff in E. rewrite E in Hpos. lra. }
  split.
  - unfold DebtSettlement.paymentProgress. rewrite Horig, Hne.
    eexists. split; [reflexivity|].
    assert (Hr0 : 0 <= Debt.totalPaid d / original)
      by (apply Qle_shift_div_l; [exact Hpos | lra]).
    assert (Hr1 : Debt.totalPaid d / original <= 1)
      by (apply Qle_shift_div_r; [exact Hpos | lra]).
    destruct (round_percent _ Hr0 Hr1) as [Hb Hfull].
    split; [exact Hb|]. intros E. apply Hfull. rewrite E. field. lra.
  - intros Hamount.
    destruct (markAsPaid_doc now method proof (DebtSettlement.mk d "" ""))
      as [Hp Ho].
    cbn [DebtSettlement.doc] in Hp, Ho.
    set (d' := DebtSettlement.doc
                 (fst (DebtSettlement.markAsPaid now method proof
                         (DebtSettlement.mk d "" "")))) in *.
    unfold DebtSettlement.paymentProgress.
    destruct (closedDebt_fields now d) as (_ & _ & Fa & Fo & _).
    rewrite Ho, Fo, Horig, Hne.
    assert (Hpaid : Debt.totalPaid d' == original).
    { unfold Debt.totalPaid at 1. rewrite Hp.
      fold (Debt.totalPaid (closedDebt now d)).
      rewrite closedDebt_totalPaid.
      destruct (remainingAmount_cases d) as [[Hle E] | [_ E]]; rewrite E; lra. }
    f_equal.
    assert (Hone : Debt.totalPaid d' / original == 1)
      by (rewrite Hpaid; field; lra).
    destruct (round_percent (Debt.totalPaid d' / original)) as [_ Hfull];
      [rewrite Hone; lra | rewrite Hone; lra |].
    apply Hfull. exact Hone.
Qed.

Lemma paymentProgress_bounds_witness :
  DebtSettlement.paymentProgress
    (DebtSettlement.doc
       (fst (DebtSettlement.markAsPaid 5 "cash" ""
               (DebtSettlement.mk (owes 1 2 100) "" ""))))
  = Some 100%Z.
Proof.
  assert (Ho : Debt.originalAmount (owes 1 2 100) = Some 100) by reflexivity.
  assert (Hpos : 0 < 100) by reflexivity.
  assert (H0 : 0 <= Debt.totalPaid (owes 1 2 100)) by (vm_compute; discriminate).
  assert (H1 : Debt.totalPaid (owes 1 2 100) <= 100) by (vm_compute; discriminate).
  assert (Ha : Debt.amount (owes 1 2 100) == 100) by reflexivity.
  exact (proj2 (paymentProgress_bounds 5 "cash" "" (owes 1 2 100) 100
                  Ho Hpos H0 H1) Ha).
Defined.

(** ** Sums over collections *)

Lemma sumBy_filter {A} (f : A -> Q) (P : A -> Prop) `{forall x, Decision (P x)}
    (l : list A) :
  sumBy f (filter P l) == sumBy (fun x => if decide (P x) then f x else 0) l.
Proof.
  induction l as [|x l IH]; [reflexivity|].
  rewrite filter_cons, (sumBy_cons (fun x => if decide (P x) then f x else 0)).
  destruct (decide (P x)).
  - rewrite sumBy_cons, IH. reflexivity.
  - rewrite IH. ring.
Qed.


Lemma map_insert_same {A B} (f : A -> B) (l : list A) (i : nat) (x y : A) :
  l !! i = Some x -> f y = f x -> map f (<[i:=y]> l) = map f l.
Proof.
  revert i. induction l as [|z l IH]; intros i Hi Hf; [discriminate Hi|].
  destruct i as [|i]; cbn in Hi.
  - injection Hi as ->. cbn. rewrite Hf. reflexivity.
  - change (<[S i:=y]> (z :: l)) with (z :: <[i:=y]> l). cbn [map].
    rewrite (IH i Hi Hf). reflexivity.
Qed.

(** ** Shares of an expense *)

Section Shares.

Import Expense ExpenseShares.


Lemma pre_save_doc (e : Expense.t) : fst (pre_save e) = e.
Proof.
  unfold pre_save, bind, get, throw, ret. cbn [fst snd].
  destruct (_ && _); reflexivity.
Qed.

Lemma save_doc (this : ExpenseShares.t) : fst (save this) = this.
Proof. unfold save. cbn [fst]. rewrite pre_save_doc. destruct this; reflexivity. Qed.

(** The expense after the split at [i] has been paid. *)
Lemma markSplitAsPaid_cases (now : Date) (userId : ObjectId)
    (this : ExpenseShares.t) :
  let e := doc this in
  let found := list_find (fun split => split_user split = userId) (splits e) in
  ((found = None \/ exists i split, found = Some (i, split)
                                    /\ split_isPaid split = true)
   /\ fst (markSplitAsPaid now userId this) = this)
  \/ (exists i split,
        found = Some (i, split) /\ split_isPaid split = false
        /\ fst (markSplitAsPaid now userId this) =
             let splits' := <[i := paySplit now split]> (splits e) in
             let settled := allPaid (paidBy e) splits' in
             mk (Expense.mk (_id e) (amount e) (paidBy e) (group e) splits'
                   (splitMethod e) (isActive e)
                   (if settled then true else isSettled e))
                (if settled then Some now else settledAt this)).
Proof.
  intros e found. subst found e.
  unfold markSplitAsPaid, bind, get. cbn [fst snd].
  destruct (list_find _ (splits (doc this))) as [[i split]|] eqn:Efind.
  - destruct (split_isPaid split) eqn:Epaid.
    + left. split; [right; exists i, split; split; [reflexivity | exact Epaid]|].
      unfold ret. apply save_doc.
    + right. exists i, split. split; [reflexivity|]. split; [exact Epaid|].
      unfold modify. apply save_doc.
  - left. split; [left; reflexivity|]. unfold ret. apply save_doc.
Qed.

Lemma allPaid_remaining (e : Expense.t) :
  allPaid (paidBy e) (splits e) = true -> remainingDebt e == 0.
Proof.
  unfold allPaid, remainingDebt. rewrite sumBy_filter.
  induction (splits e) as [|s l IH]; intros Hall; [reflexivity|].
  cbn [forallb] in Hall. apply andb_true_iff in Hall. destruct Hall as [Hs Hl].
  rewrite sumBy_cons, (IH Hl).
  rewrite decide_False; [ring|]. intros [Hp Hu].
  rewrite Hp in Hs. cbn [orb] in Hs. unfold sameId in Hs.
  apply bool_decide_eq_true in Hs. exact (Hu Hs).
Qed.

End Shares.




(** X8: [markSplitAsPaid] never clears [isSettled]; when it sets it, it
    stamps [settledAt] and nothing remains to be paid; and it sets it
    whenever it has paid a split and every split is then paid or the
    payer's own. *)
Theorem markSplitAsPaid_settles_when_all_paid
    (now : Date) (userId : ObjectId) (this : ExpenseShares.t) :
  let this' := fst (ExpenseShares.markSplitAsPaid now userId this) in
  let e := ExpenseShares.doc this in
  let e' := ExpenseShares.doc this' in
  (Expense.isSettled e = true -> Expense.isSettled e' = true)
  /\ (Expense.isSettled e = false -> Expense.isSettled e' = true ->
        ExpenseShares.remainingDebt e' == 0
        /\ ExpenseShares.settledAt this' = Some now)
  /\ (forall i split,
        list_find (fun split => Expense.split_user split = userId)
                  (Expense.splits e) = Some (i, split) ->
        Expense.split_isPaid split = false ->
        ExpenseShares.allPaid (Expense.paidBy e') (Expense.splits e') = true ->
        Expense.isSettled e' = true).
Proof.
  intros this' e e'. subst e' e this'.
  destruct (markSplitAsPaid_cases now userId this)
    as [[Hwhy E] | (i & split & Hfind & Hpaid & E)]; rewrite E; clear E.
  - split; [intros H; exact H|]. split; [intros H1 H2; congruence|].
    intros i split Hfind Hpaid. exfalso.
    destruct Hwhy as [Hnone | (j & s & Hsome & Hp)]; congruence.
  - cbn [ExpenseShares.doc ExpenseShares.settledAt Expense.isSettled
         Expense.splits Expense.paidBy].
    set (splits' := <[i:=ExpenseShares.paySplit now split]>
                      (Expense.splits (ExpenseShares.doc this))).
    destruct (ExpenseShares.allPaid
                (Expense.paidBy (ExpenseShares.doc this)) splits') eqn:Eall.
    + split; [intros _; reflexivity|]. split; [|intros; reflexivity].
      intros _ _. split; [|reflexivity].
      apply allPaid_remaining. exact Eall.
    + split; [intros H; exact H|]. split; [intros H1 H2; congruence|].
      intros i' split' _ _ H. discriminate H.
Qed.

(** X9: marking the split of a user paid a second time changes nothing. *)
Theorem markSplitAsPaid_idempotent
    (first second : Date) (userId : ObjectId) (this : ExpenseShares.t) :
  fst (ExpenseShares.markSplitAsPaid second userId
         (fst (ExpenseShares.markSplitAsPaid first userId this)))
  = fst (ExpenseShares.markSplitAsPaid first userId this).
Proof.
  destruct (markSplitAsPaid_cases first userId this)
    as [[Hwhy E] | (i & split & Hfind & Hpaid & E)]; rewrite E; clear E.
  - destruct (markSplitAsPaid_cases second userId this)
      as [[_ E] | (i & split & Hfind & Hpaid & _)]; [exact E|].
    exfalso. destruct Hwhy as [Hnone | (j & s & Hsome & Hp)]; congruence.
  - set (this1 := ExpenseShares.mk _ _).
    apply list_find_Some in Hfind. destruct Hfind as (Hi & Hu & Hleast).
    assert (Hfind1 :
      list_find (fun split => Expense.split_user split = userId)
                (Expense.splits (ExpenseShares.doc this1))
      = Some (i, ExpenseShares.paySplit first split)).
    { apply list_find_Some. subst this1. cbn [ExpenseShares.doc Expense.splits].
      split; [apply list_lookup_insert_eq; eapply lookup_lt_Some; exact Hi|].
      split; [exact Hu|]. intros j y Hj Hlt.
      rewrite list_lookup_insert_ne in Hj by lia. exact (Hleast j y Hj Hlt). }
    destruct (markSplitAsPaid_cases second userId this1)
      as [[_ E] | (i' & split' & Hfind' & Hpaid' & _)]; [exact E|].
    exfalso. rewrite Hfind1 in Hfind'. injection Hfind' as <- <-.
    discriminate Hpaid'.
Qed.

(** X11: [getUserSplitAmount] is 0 for a user without a split, so a
    non-zero answer means the user is involved. *)
Theorem split_amount_of_involved_user (e : Expense.t) (userId : ObjectId) :
  (userId ∉ map Expense.split_user (Expense.splits e) ->
     ExpenseShares.getUserSplitAmount e userId = 0)
  /\ (~ ExpenseShares.getUserSplitAmount e userId == 0 ->
        ExpenseShares.isUserInvolved e userId = true).
Proof.
  split.
  - intros Hnot. unfold ExpenseShares.getUserSplitAmount.
    destruct (list_find _ (Expense.splits e)) as [[i s]|] eqn:Efind;
      [|reflexivity].
    exfalso. apply Hnot. apply list_find_Some in Efind.
    destruct Efind as (Hi & Hu & _). rewrite <- Hu.
    apply list_elem_of_In, List.in_map, list_elem_of_In.
    eapply list_elem_of_lookup_2. exact Hi.
  - intros Hne. unfold ExpenseShares.getUserSplitAmount in Hne.
    destruct (list_find _ (Expense.splits e)) as [[i s]|] eqn:Efind.
    + apply list_find_Some in Efind. destruct Efind as (Hi & Hu & _).
      unfold ExpenseShares.isUserInvolved. apply orb_true_iff. right.
      apply existsb_exists. exists s. split.
      * apply list_elem_of_In. eapply list_elem_of_lookup_2. exact Hi.
      * unfold Expense.sameId. apply bool_decide_eq_true. exact Hu.
    + exfalso. apply Hne. reflexivity.
Qed.

(** ** The matching of debtors and creditors *)

Lemma round2_mono (x y : Q) : x <= y -> round2 x <= round2 y.
Proof.
  intros H. unfold round2, Math_round. rewrite !div100.
  assert (Hz : (Qfloor (x * 100 + (1 # 2)) <= Qfloor (y * 100 + (1 # 2)))%Z)
    by (apply Qfloor_resp_le; lra).
  rewrite Zle_Qle in Hz.
  revert Hz. generalize (inject_Z (Qfloor (x * 100 + (1 # 2)))),
    (inject_Z (Qfloor (y * 100 + (1 # 2)))). intros; lra.
Qed.

Lemma round2_cent (x : Q) : (1 # 100) <= x -> (1 # 100) <= round2 x.
Proof.
  intros H. apply round2_mono in H.
  assert (E : round2 (1 # 100) == (1 # 100)) by reflexivity.
  rewrite E in H. exact H.
Qed.

Lemma lookup_fst_elem {A B} (l : list (A * B)) (i : nat) (p : A * B) :
  l !! i = Some p -> fst p ∈ map fst l.
Proof.
  intros H. apply list_elem_of_In, List.in_map, list_elem_of_In.
  eapply list_elem_of_lookup_2. exact H.
Qed.

Lemma matchStep_matched (ds0 cs0 : list ObjectId)
    (s s' : DebtCalculator.Matching) :
  DebtCalculator.matchStep s = Some s' -> matched ds0 cs0 s -> matched ds0 cs0 s'.
Proof.
  unfold DebtCalculator.matchStep.
  destruct (DebtCalculator.debtors s !! DebtCalculator.debtorIndex s)
    as [[du da]|] eqn:Ed; [|discriminate].
  destruct (DebtCalculator.creditors s !! DebtCalculator.creditorIndex s)
    as [[cu ca]|] eqn:Ec; [|discriminate].
  intros [= <-] (Hds & Hcs & Hd & Hc & Hout & Hlen & _).
  cbn [fst snd] in *.
  pose proof (Hd _ _ (Nat.le_refl _) Ed) as Hda.
  pose proof (Hc _ _ (Nat.le_refl _) Ec) as Hca.
  cbn [snd] in Hda, Hca.
  pose proof (lookup_lt_Some _ _ _ Ed) as Hdi.
  pose proof (lookup_lt_Some _ _ _ Ec) as Hci.
  assert (Hlds : length ds0 = length (DebtCalculator.debtors s))
    by (rewrite <- Hds; apply List.length_map).
  assert (Hlcs : length cs0 = length (DebtCalculator.creditors s))
    by (rewrite <- Hcs; apply List.length_map).
  unfold Math_min.
  assert (Hmin : (1 # 100) <= Qmin da ca)
    by (apply Q.min_glb; assumption).
  assert (Hadv : ltb (da - Qmin da ca) (1 # 100) = true
                 \/ ltb (ca - Qmin da ca) (1 # 100) = true).
  { destruct (Q.min_spec da ca) as [[_ E] | [_ E]]; [left | right];
      apply ltb_lt; rewrite E; lra. }
  unfold matched.
  cbn [DebtCalculator.debtors DebtCalculator.creditors
       DebtCalculator.debtorIndex DebtCalculator.creditorIndex
       DebtCalculator.out].
  split; [rewrite <- Hds; apply (map_insert_same _ _ _ (du, da));
          [exact Ed | reflexivity]|].
  split; [rewrite <- Hcs; apply (map_insert_same _ _ _ (cu, ca));
          [exact Ec | reflexivity]|].
  split; [|split; [|split; [|split]]].
  - intros i p Hi Hp.
    destruct (decide (i = DebtCalculator.debtorIndex s)) as [-> | Hne].
    + rewrite list_lookup_insert_eq in Hp by exact Hdi. injection Hp as <-.
      cbn [snd]. destruct (ltb (da - Qmin da ca) (1 # 100)) eqn:E; [lia|].
      apply ltb_ge in E. exact E.
    + rewrite list_lookup_insert_ne in Hp by (intros E; apply Hne; symmetry; exact E).
      apply (Hd i p); [|exact Hp].
      destruct (ltb (da - Qmin da ca) (1 # 100)); lia.
  - intros i p Hi Hp.
    destruct (decide (i = DebtCalculator.creditorIndex s)) as [-> | Hne].
    + rewrite list_lookup_insert_eq in Hp by exact Hci. injection Hp as <-.
      cbn [snd]. destruct (ltb (ca - Qmin da ca) (1 # 100)) eqn:E; [lia|].
      apply ltb_ge in E. exact E.
    + rewrite list_lookup_insert_ne in Hp by (intros E; apply Hne; symmetry; exact E).
      apply (Hc i p); [|exact Hp].
      destruct (ltb (ca - Qmin da ca) (1 # 100)); lia.
  - apply Forall_app. split; [exact Hout|]. apply Forall_singleton.
    cbn [DebtCalculator.amount DebtCalculator.debtor DebtCalculator.creditor].
    split; [apply round2_cent; exact Hmin|].
    split; [rewrite <- Hds; exact (lookup_fst_elem _ _ _ Ed)
           | rewrite <- Hcs; exact (lookup_fst_elem _ _ _ Ec)].
  - rewrite length_app. cbn [length].
    destruct Hadv as [E | E]; rewrite E;
      [destruct (ltb (ca - Qmin da ca) (1 # 100))
      | destruct (ltb (da - Qmin da ca) (1 # 100))]; lia.
  - intros _. rewrite length_app. cbn [length]. lia.
Qed.

Lemma matchLoop_matched (ds0 cs0 : list ObjectId) (fuel : nat)
    (s : DebtCalculator.Matching) :
  matched ds0 cs0 s -> matched ds0 cs0 (DebtCalculator.matchLoop fuel s).
Proof.
  revert s. induction fuel as [|fuel IH]; intros s Hs; cbn [DebtCalculator.matchLoop];
    [exact Hs|].
  destruct (DebtCalculator.matchStep s) as [s'|] eqn:E; [|exact Hs].
  apply IH. exact (matchStep_matched ds0 cs0 s s' E Hs).
Qed.

Lemma debtorsOf_elem (b : DebtCalculator.Balances) (p : ObjectId * Q) :
  p ∈ DebtCalculator.debtorsOf b <->
  (fst p, Some (snd p)) ∈ b /\ (1 # 100) < snd p.
Proof.
  unfold DebtCalculator.debtorsOf. rewrite list_elem_of_omap. split.
  - intros ([u [x|]] & Hin & Hf); cbn [fst snd] in Hf; [|discriminate].
    destruct (gtb x (1 # 100)) eqn:E; [|discriminate].
    injection Hf as <-. cbn [fst snd]. split; [exact Hin | apply gtb_gt; exact E].
  - intros [Hin Hgt]. exists (fst p, Some (snd p)). split; [exact Hin|].
    cbn [fst snd]. apply gtb_gt in Hgt. rewrite Hgt. destruct p; reflexivity.
Qed.

Lemma creditorsOf_elem (b : DebtCalculator.Balances) (p : ObjectId * Q) :
  p ∈ DebtCalculator.creditorsOf b ->
  exists x, (fst p, Some x) ∈ b /\ x < - (1 # 100) /\ snd p == - x.
Proof.
  unfold DebtCalculator.creditorsOf. rewrite list_elem_of_omap.
  intros ([u [x|]] & Hin & Hf); cbn [fst snd] in Hf; [|discriminate].
  destruct (gtb x (1 # 100)) eqn:E; [discriminate|].
  destruct (ltb x (- (1 # 100))) eqn:E'; [|discriminate].
  injection Hf as <-. cbn [fst snd]. apply ltb_lt in E'.
  exists x. split; [exact Hin|]. split; [exact E'|].
  unfold Math_abs. apply Qabs_neg. lra.
Qed.

Lemma matching_starts_matched (b : DebtCalculator.Balances) :
  matched (map fst (DebtCalculator.debtorsOf b))
          (map fst (DebtCalculator.creditorsOf b))
          (DebtCalculator.mkMatching (DebtCalculator.debtorsOf b)
             (DebtCalculator.creditorsOf b) 0 0 []).
Proof.
  unfold matched.
  cbn [DebtCalculator.debtors DebtCalculator.creditors
       DebtCalculator.debtorIndex DebtCalculator.creditorIndex
       DebtCalculator.out].
  split; [reflexivity|]. split; [reflexivity|].
  split; [|split; [|split; [|split]]].
  - intros i p _ Hp. apply list_elem_of_lookup_2, debtorsOf_elem in Hp.
    destruct Hp as [_ Hgt]. lra.
  - intros i p _ Hp. apply list_elem_of_lookup_2, creditorsOf_elem in Hp.
    destruct Hp as (x & _ & Hlt & E). rewrite E. lra.
  - constructor.
  - cbn [length]. lia.
  - intros H. exfalso. apply H. reflexivity.
Qed.

(** X12: every settlement that [calculateOptimalDebts] makes is of at least
    0.01, from a user whose balance is above 0.01 to a user whose balance is
    below -0.01; and when there are settlements, they are fewer than the users
    with such balances. *)
Theorem calculateOptimalDebts_settlements
    (balances : DebtCalculator.Balances) (members : list ObjectId) :
  let debts := DebtCalculator.calculateOptimalDebts balances members in
  Forall (fun t =>
            (1 # 100) <= DebtCalculator.amount t
            /\ (exists x, (DebtCalculator.debtor t, Some x) ∈ balances
                          /\ (1 # 100) < x)
            /\ (exists y, (DebtCalculator.creditor t, Some y) ∈ balances
                          /\ y < - (1 # 100)))
         debts
  /\ (debts <> [] ->
        (length debts + 1
         <= length (DebtCalculator.debtorsOf balances)
            + length (DebtCalculator.creditorsOf balances))%nat).
Proof.
  intros debts. subst debts. unfold DebtCalculator.calculateOptimalDebts.
  pose proof (matchLoop_matched _ _
    (length (DebtCalculator.debtorsOf balances)
     + length (DebtCalculator.creditorsOf balances)) _
    (matching_starts_matched balances)) as (_ & _ & _ & _ & Hout & _ & Hcount).
  split.
  - eapply Forall_impl; [exact Hout|]. intros t (Ha & Hd & Hc).
    split; [exact Ha|]. split.
    + apply list_elem_of_In, List.in_map_iff in Hd. destruct Hd as (p & Hp & Hin).
      apply list_elem_of_In, debtorsOf_elem in Hin. rewrite Hp in Hin.
      exists (snd p). exact Hin.
    + apply list_elem_of_In, List.in_map_iff in Hc. destruct Hc as (p & Hp & Hin).
      apply list_elem_of_In, creditorsOf_elem in Hin. rewrite Hp in Hin.
      destruct Hin as (x & Hin & Hlt & _). exists x. split; assumption.
  - intros Hne. specialize (Hcount Hne). rewrite !List.length_map in Hcount.
    exact Hcount.
Qed.

(** ** A group without expenses *)

Lemma NoDup_keys_snoc (keys : list ObjectId) (k : ObjectId) :
  NoDup keys -> k ∉ keys -> NoDup (keys ++ [k]).
Proof.
  intros Hnd Hnot. apply NoDup_app. split; [exact Hnd|]. split.
  - intros u Hu Hk. apply list_elem_of_singleton in Hk. subst u. exact (Hnot Hu).
  - apply NoDup_singleton.
Qed.

Lemma filter_none {A} (P : A -> Prop) `{forall x, Decision (P x)} (l : list A) :
  Forall (fun x => ~ P x) l -> filter P l = [].
Proof.
  induction 1 as [|x l Hx _ IH]; [reflexivity|].
  rewrite filter_cons_False by exact Hx. exact IH.
Qed.

(** X15: for a group that exists and has no stored expense, [calculateDebts]
    returns no settlement and leaves the group without pending debts. *)
Theorem calculateDebts_without_expenses
    (now : Date) (g : ObjectId) (st : Store) (i : nat) (gr : Group.t) :
  list_find (fun gr => Group._id gr = g) (groups st) = Some (i, gr) ->
  Forall (fun e => Expense.group e <> g) (expenses st) ->
  snd (DebtCalculator.calculateDebts now g st) = Return []
  /\ filter (DebtCalculator.pendingIn g)
            (debts (fst (DebtCalculator.calculateDebts now g st))) = []
  /\ debts (fst (DebtCalculator.calculateDebts now g st))
     = filter (fun d => ~ DebtCalculator.pendingIn g d) (debts st).
Proof.
  intros Hfind Hnone.
  destruct (calculateDebts_cases now g st)
    as [[Hsome _] | [(_ & Hno & _) | (_ & _ & E)]].
  - exfalso. apply Hsome. apply filter_none. exact Hnone.
  - congruence.
  - rewrite E. cbn [fst snd debts]. rewrite filter_kept_pending.
    repeat split; reflexivity.
Qed.

Lemma calculateDebts_without_expenses_witness :
  snd (DebtCalculator.calculateDebts 0 7
         (fst (ExpenseController.deleteExpense 0 0 1 lunch_store)))
  = Return [].
Proof.
  assert (Hfind : list_find (fun gr => Group._id gr = 7%nat)
                    (groups (fst (ExpenseController.deleteExpense 0 0 1 lunch_store)))
                  = Some (0%nat, Group.mk 7 [11; 12; 13]%nat))
    by (vm_compute; reflexivity).
  assert (Hnone : Forall (fun e => Expense.group e <> 7%nat)
                    (expenses (fst (ExpenseController.deleteExpense 0 0 1
                                      lunch_store))))
    by (vm_compute; constructor).
  exact (proj1 (calculateDebts_without_expenses 0 7 _ 0 _ Hfind Hnone)).
Defined.

(** ** Summaries and handlers *)





Lemma includes_false (members : list ObjectId) (id : ObjectId) :
  Group.includes members id = false.
Proof.
  unfold Group.includes. induction members as [|m members IH]; [reflexivity|].
  exact IH.
Qed.

(** X17: [calculateGroupDebts] answers 404 for a missing group, and 403 for
    every user when the group exists, since [members] holds sub-documents
    and no sub-document is the string [req.user.id]; it never runs
    [calculateDebts], so it changes nothing and hands out no debt. *)
Theorem calculateGroupDebts_denies_every_user
    (now : Date) (g user : ObjectId) (st : Store) :
  let result := DebtReports.calculateGroupDebts now g user st in
  (list_find (fun gr => Group._id gr = g) (groups st) = None ->
     result = (st, (ExpenseController.mkResponse 404 false "Group not found", [])))
  /\ (forall i gr,
        list_find (fun gr => Group._id gr = g) (groups st) = Some (i, gr) ->
        result = (st, (ExpenseController.mkResponse 403 false "Access denied",
                       [])))
  /\ fst result = st
  /\ snd (snd result) = [].
Proof.
  intros result. subst result. unfold DebtReports.calculateGroupDebts.
  destruct (list_find _ (groups st)) as [[i gr]|] eqn:Efind.
  - rewrite includes_false. cbn [negb fst snd].
    split; [discriminate|]. split; [intros; reflexivity|].
    split; reflexivity.
  - split; [reflexivity|]. split; [discriminate|]. split; reflexivity.
Qed.

(** X18: [deleteExpense] answers 404 for an unknown identifier and 403 for
    a requester who is not the payer, changing nothing; so a change of the
    stored collections means that the payer has asked for it. *)
Theorem deleteExpense_only_by_payer
    (now : Date) (id user : ObjectId) (st : Store) :
  let result := ExpenseController.deleteExpense now id user st in
  (list_find (fun e => Expense._id e = id) (expenses st) = None ->
     result = (st, ExpenseController.mkResponse 404 false "Expense not found"))
  /\ (forall i e,
        list_find (fun e => Expense._id e = id) (expenses st) = Some (i, e) ->
        Expense.paidBy e <> user ->
        result = (st, ExpenseController.mkResponse 403 false "Access denied"))
  /\ (fst result <> st ->
        exists i e,
          list_find (fun e => Expense._id e = id) (expenses st) = Some (i, e)
          /\ Expense.paidBy e = user).
Proof.
  intros result. subst result. unfold ExpenseController.deleteExpense.
  destruct (list_find _ (expenses st)) as [[i e]|] eqn:Efind.
  - split; [discriminate|]. split.
    + intros i' e' [= <- <-] Hne.
      rewrite bool_decide_eq_false_2 by exact Hne. reflexivity.
    + destruct (decide (Expense.paidBy e = user)) as [Hp | Hp].
      * intros _. exists i, e. split; [reflexivity | exact Hp].
      * rewrite bool_decide_eq_false_2 by exact Hp. cbn [negb fst].
        intros H. exfalso. apply H. reflexivity.
  - split; [reflexivity|]. split; [discriminate|].
    cbn [fst]. intros H. exfalso. apply H. reflexivity.
Qed.

(** ** Members of a group *)

Section Members.

Import GroupModel.

Lemma pre_save_result (this : t) :
  pre_save this =
    (this, if bool_decide (length (admins this) = 0%nat)
           then Throw "Group must have at least one admin"
           else Return tt).
Proof.
  unfold pre_save, bind, get, throw, ret. cbn [fst snd].
  destruct (bool_decide _); reflexivity.
Qed.

Lemma addMember_cases (now : Date) (userId : ObjectId) (r : Role) (this : t) :
  let found := list_find (fun m => user m = userId) (members this) in
  (exists i m, found = Some (i, m) /\ isActive m = true
               /\ addMember now userId r this = pre_save this)
  \/ (exists i m, found = Some (i, m) /\ isActive m = false
                  /\ addMember now userId r this =
                       pre_save (set_members
                                   (<[i := mkMember (user m) (role m) now true]>
                                      (members this)) this))
  \/ (found = None
      /\ addMember now userId r this =
           pre_save (set_members
                       (members this ++ [mkMember userId r now true]) this)).
Proof.
  intros found. subst found. unfold addMember, bind, get. cbn [fst snd].
  destruct (list_find _ (members this)) as [[i m]|] eqn:Efind.
  - destruct (isActive m) eqn:Eact.
    + left. exists i, m. split; [reflexivity|]. split; [exact Eact|].
      reflexivity.
    + right. left. exists i, m. split; [reflexivity|]. split; [exact Eact|].
      reflexivity.
  - right. right. split; reflexivity.
Qed.

Lemma removeMember_cases (userId : ObjectId) (this : t) :
  let found := list_find (fun m => user m = userId) (members this) in
  (exists i m, found = Some (i, m)
               /\ removeMember userId this =
                    pre_save (set_members
                                (<[i := mkMember (user m) (role m) (joinedAt m)
                                                 false]> (members this)) this))
  \/ (found = None /\ removeMember userId this = pre_save this).
Proof.
  intros found. subst found. unfold removeMember, bind, get. cbn [fst snd].
  destruct (list_find _ (members this)) as [[i m]|] eqn:Efind.
  - left. exists i, m. split; reflexivity.
  - right. split; reflexivity.
Qed.

Lemma fst_pre_save (this : t) : fst (pre_save this) = this.
Proof. rewrite pre_save_result. reflexivity. Qed.

Lemma isMember_true (this : t) (userId : ObjectId) :
  isMember this userId = true <->
  exists m, m ∈ members this /\ user m = userId /\ isActive m = true.
Proof.
  unfold isMember. rewrite existsb_exists. split.
  - intros (m & Hin & Hm). apply andb_true_iff in Hm. destruct Hm as [Hu Ha].
    apply bool_decide_eq_true in Hu. exists m.
    split; [apply list_elem_of_In; exact Hin|]. split; assumption.
  - intros (m & Hin & Hu & Ha). exists m.
    split; [apply list_elem_of_In; exact Hin|].
    apply andb_true_iff. split; [apply bool_decide_eq_true; exact Hu | exact Ha].
Qed.

Lemma lookup_map {A B} (f : A -> B) (l : list A) (i : nat) :
  map f l !! i = f <$> l !! i.
Proof. exact (list_lookup_fmap f l i). Qed.

Lemma unique_entry (ms : list Member) (i j : nat) (m m' : Member) :
  NoDup (map user ms) -> ms !! i = Some m -> ms !! j = Some m' ->
  user m = user m' -> i = j.
Proof.
  intros Hnd Hi Hj Hu. apply (NoDup_lookup _ i j (user m) Hnd).
  - rewrite lookup_map, Hi. reflexivity.
  - rewrite lookup_map, Hj, Hu. reflexivity.
Qed.

Lemma found_absent (ms : list Member) (userId : ObjectId) :
  list_find (fun m => user m = userId) ms = None -> userId ∉ map user ms.
Proof.
  intros Hnone Hin. apply list_find_None in Hnone.
  apply list_elem_of_In, List.in_map_iff in Hin. destruct Hin as (m & Hu & Hin).
  apply list_elem_of_In in Hin.
  rewrite Forall_forall in Hnone. exact (Hnone m Hin Hu).
Qed.

End Members.

(** X21: [addMember] and [removeMember] keep the users of the member list
    distinct; [addMember] adds at most one entry and changes no user,
    [removeMember] removes no entry. *)
Theorem members_stay_distinct
    (now : Date) (userId : ObjectId) (r : GroupModel.Role) (this : GroupModel.t) :
  NoDup (map GroupModel.user (GroupModel.members this)) ->
  let added := fst (GroupModel.addMember now userId r this) in
  let removed := fst (GroupModel.removeMember userId this) in
  NoDup (map GroupModel.user (GroupModel.members added))
  /\ NoDup (map GroupModel.user (GroupModel.members removed))
  /\ (map GroupModel.user (GroupModel.members added)
      = map GroupModel.user (GroupModel.members this)
      \/ map GroupModel.user (GroupModel.members added)
         = map GroupModel.user (GroupModel.members this) ++ [userId])
  /\ map GroupModel.user (GroupModel.members removed)
     = map GroupModel.user (GroupModel.members this).
Proof.
  intros Hnd added removed. subst added removed.
  assert (Hadd :
    map GroupModel.user
        (GroupModel.members (fst (GroupModel.addMember now userId r this)))
    = map GroupModel.user (GroupModel.members this)
    \/ ((userId ∉ map GroupModel.user (GroupModel.members this))
        /\ map GroupModel.user
             (GroupModel.members (fst (GroupModel.addMember now userId r this)))
           = map GroupModel.user (GroupModel.members this) ++ [userId])).
  { destruct (addMember_cases now userId r this)
      as [(i & m & _ & _ & E) | [(i & m & Hfind & _ & E) | (Hnone & E)]];
      rewrite E, fst_pre_save.
    - left. reflexivity.
    - left. cbn [GroupModel.members GroupModel.set_members].
      apply list_find_Some in Hfind. destruct Hfind as (Hi & _).
      apply (map_insert_same _ _ _ m); [exact Hi | reflexivity].
    - right. split; [exact (found_absent _ _ Hnone)|].
      cbn [GroupModel.members GroupModel.set_members].
      rewrite List.map_app. reflexivity. }
  assert (Hrem :
    map GroupModel.user
        (GroupModel.members (fst (GroupModel.removeMember userId this)))
    = map GroupModel.user (GroupModel.members this)).
  { destruct (removeMember_cases userId this)
      as [(i & m & Hfind & E) | (_ & E)]; rewrite E, fst_pre_save.
    - cbn [GroupModel.members GroupModel.set_members].
      apply list_find_Some in Hfind. destruct Hfind as (Hi & _).
      apply (map_insert_same _ _ _ m); [exact Hi | reflexivity].
    - reflexivity. }
  split; [|split; [|split]].
  - destruct Hadd as [E | [Hnot E]]; rewrite E;
      [exact Hnd | apply NoDup_keys_snoc; assumption].
  - rewrite Hrem. exact Hnd.
  - destruct Hadd as [E | [_ E]]; [left | right]; exact E.
  - exact Hrem.
Qed.

(** A group of an admin 1, a member 2 and a former member 3. *)
Lemma members_stay_distinct_witness :
  NoDup (map GroupModel.user
           (GroupModel.members
              (fst (GroupModel.addMember 50 3 GroupModel.admin
                      (GroupModel.mk
                         [GroupModel.mkMember 1 GroupModel.admin 0 true;
                          GroupModel.mkMember 2 GroupModel.member 0 true;
                          GroupModel.mkMember 3 GroupModel.member 0 false]
                         1))))).
Proof.
  assert (Hnd : NoDup (map GroupModel.user
                         (GroupModel.members
                            (GroupModel.mk
                               [GroupModel.mkMember 1 GroupModel.admin 0 true;
                                GroupModel.mkMember 2 GroupModel.member 0 true;
                                GroupModel.mkMember 3 GroupModel.member 0 false]
                               1)))).
  { cbn. apply NoDup_ListNoDup. repeat constructor; cbn; lia. }
  exact (proj1 (members_stay_distinct 50 3 GroupModel.admin _ Hnd)).
Defined.

Lemma existsb_insert_same {A} (p : A -> bool) (l : list A) (i : nat) (x y : A) :
  l !! i = Some x -> p y = p x -> existsb p (<[i:=y]> l) = existsb p l.
Proof.
  revert i. induction l as [|z l IH]; intros i Hi Hp; [discriminate Hi|].
  destruct i as [|i]; cbn in Hi.
  - injection Hi as ->. cbn. rewrite Hp. reflexivity.
  - change (<[S i:=y]> (z :: l)) with (z :: <[i:=y]> l). cbn [existsb].
    rewrite (IH i Hi Hp). reflexivity.
Qed.

Lemma list_find_insert_same {A} (P : A -> Prop) `{forall x, Decision (P x)}
    (l : list A) (i : nat) (x y : A) :
  list_find P l = Some (i, x) -> P y -> list_find P (<[i:=y]> l) = Some (i, y).
Proof.
  intros Hfind Hy. apply list_find_Some in Hfind.
  destruct Hfind as (Hi & _ & Hleast). apply list_find_Some.
  split; [apply list_lookup_insert_eq; eapply lookup_lt_Some; exact Hi|].
  split; [exact Hy|]. intros j z Hj Hlt.
  rewrite list_lookup_insert_ne in Hj by lia. exact (Hleast j z Hj Hlt).
Qed.

(** X22: after [addMember] the user is an active member; after
    [removeMember], the users of the list being distinct, the user is not;
    and neither changes whether another user is a member. *)
Theorem membership_follows_add_and_remove
    (now : Date) (userId : ObjectId) (r : GroupModel.Role) (this : GroupModel.t) :
  let added := fst (GroupModel.addMember now userId r this) in
  let removed := fst (GroupModel.removeMember userId this) in
  GroupModel.isMember added userId = true
  /\ (NoDup (map GroupModel.user (GroupModel.members this)) ->
        GroupModel.isMember removed userId = false)
  /\ (forall other, other <> userId ->
        GroupModel.isMember added other = GroupModel.isMember this other
        /\ GroupModel.isMember removed other = GroupModel.isMember this other).
Proof.
  intros added removed. subst added removed.
  assert (Hother : forall (other : ObjectId) (m m' : GroupModel.Member),
            other <> userId -> GroupModel.user m = userId ->
            GroupModel.user m' = userId ->
            bool_decide (GroupModel.user m' = other) && GroupModel.isActive m'
            = bool_decide (GroupModel.user m = other) && GroupModel.isActive m).
  { intros other m m' Hne Hm Hm'.
    rewrite !bool_decide_eq_false_2 by congruence. reflexivity. }
  split; [|split].
  - apply isMember_true.
    destruct (addMember_cases now userId r this)
      as [(i & m & Hfind & Hact & E) | [(i & m & Hfind & _ & E) | (_ & E)]];
      rewrite E, fst_pre_save.
    + apply list_find_Some in Hfind. destruct Hfind as (Hi & Hu & _).
      exists m. split; [eapply list_elem_of_lookup_2; exact Hi|].
      split; assumption.
    + apply list_find_Some in Hfind. destruct Hfind as (Hi & Hu & _).
      exists (GroupModel.mkMember (GroupModel.user m) (GroupModel.role m)
                now true).
      split; [|split; [exact Hu | reflexivity]].
      cbn [GroupModel.members GroupModel.set_members].
      eapply list_elem_of_lookup_2. apply list_lookup_insert_eq.
      eapply lookup_lt_Some. exact Hi.
    + exists (GroupModel.mkMember userId r now true).
      split; [|split; reflexivity].
      cbn [GroupModel.members GroupModel.set_members].
      apply elem_of_app. right. left.
  - intros Hnd. apply not_true_is_false. intros Htrue.
    apply isMember_true in Htrue. destruct Htrue as (m' & Hin & Hu' & Hact').
    destruct (removeMember_cases userId this)
      as [(i & m & Hfind & E) | (Hnone & E)]; rewrite E, fst_pre_save in Hin.
    + cbn [GroupModel.members GroupModel.set_members] in Hin.
      apply list_find_Some in Hfind. destruct Hfind as (Hi & Hu & _).
      apply list_elem_of_lookup in Hin. destruct Hin as [j Hj].
      destruct (decide (i = j)) as [<- | Hne].
      * rewrite list_lookup_insert_eq in Hj by (eapply lookup_lt_Some; exact Hi).
        injection Hj as <-. discriminate Hact'.
      * rewrite list_lookup_insert_ne in Hj by exact Hne.
        apply Hne. apply (unique_entry _ i j m m' Hnd Hi Hj). congruence.
    + apply (found_absent _ _ Hnone). rewrite <- Hu'.
      apply list_elem_of_In, List.in_map, list_elem_of_In. exact Hin.
  - intros other Hne. split.
    + destruct (addMember_cases now userId r this)
        as [(i & m & _ & _ & E) | [(i & m & Hfind & _ & E) | (_ & E)]];
        rewrite E, fst_pre_save; [reflexivity| |].
      * apply list_find_Some in Hfind. destruct Hfind as (Hi & Hu & _).
        unfold GroupModel.isMember.
        cbn [GroupModel.members GroupModel.set_members].
        apply (existsb_insert_same _ _ _ m); [exact Hi|].
        apply Hother; [exact Hne | exact Hu | exact Hu].
      * unfold GroupModel.isMember.
        cbn [GroupModel.members GroupModel.set_members].
        rewrite List.existsb_app. cbn [existsb GroupModel.user].
        rewrite (bool_decide_eq_false_2 (userId = other))
          by (intros E'; apply Hne; symmetry; exact E').
        cbn [andb orb]. apply orb_false_r.
    + destruct (removeMember_cases userId this)
        as [(i & m & Hfind & E) | (_ & E)]; rewrite E, fst_pre_save;
        [|reflexivity].
      apply list_find_Some in Hfind. destruct Hfind as (Hi & Hu & _).
      unfold GroupModel.isMember.
      cbn [GroupModel.members GroupModel.set_members].
      apply (existsb_insert_same _ _ _ m); [exact Hi|].
      apply Hother; [exact Hne | exact Hu | exact Hu].
Qed.

(** X23: a call of [addMember] or [removeMember] that returns leaves an
    active admin in the list; and [removeMember] throws, the users being
    distinct, when the list has no active admin but the user removed. *)
Theorem saved_group_has_an_admin
    (now : Date) (userId : ObjectId) (r : GroupModel.Role) (this : GroupModel.t) :
  (returns (GroupModel.addMember now userId r) this ->
     GroupModel.admins (fst (GroupModel.addMember now userId r this)) <> [])
  /\ (returns (GroupModel.removeMember userId) this ->
        GroupModel.admins (fst (GroupModel.removeMember userId this)) <> [])
  /\ (NoDup (map GroupModel.user (GroupModel.members this)) ->
        (forall m, m ∈ GroupModel.admins this -> GroupModel.user m = userId) ->
        throws (GroupModel.removeMember userId) this).
Proof.
  assert (Hret : forall g' : GroupModel.t,
            (exists a, snd (GroupModel.pre_save g') = Return a) ->
            GroupModel.admins g' <> []).
  { intros g' [a Ha]. rewrite pre_save_result in Ha. cbn [snd] in Ha.
    destruct (bool_decide (length (GroupModel.admins g') = 0%nat)) eqn:E;
      [discriminate Ha|].
    apply bool_decide_eq_false in E. intros Hnil. apply E. rewrite Hnil.
    reflexivity. }
  assert (Hthrow : forall g' : GroupModel.t,
            GroupModel.admins g' = [] ->
            exists e, snd (GroupModel.pre_save g') = Throw e).
  { intros g' Hnil. rewrite pre_save_result, Hnil. cbn. eexists. reflexivity. }
  unfold returns, throws. split; [|split].
  - destruct (addMember_cases now userId r this)
      as [(i & m & _ & _ & E) | [(i & m & _ & _ & E) | (_ & E)]];
      rewrite E, fst_pre_save; apply Hret.
  - destruct (removeMember_cases userId this)
      as [(i & m & _ & E) | (_ & E)]; rewrite E, fst_pre_save; apply Hret.
  - intros Hnd Honly.
    destruct (removeMember_cases userId this)
      as [(i & m & Hfind & E) | (Hnone & E)]; rewrite E; apply Hthrow.
    + apply list_find_Some in Hfind. destruct Hfind as (Hi & Hu & _).
      unfold GroupModel.admins.
      cbn [GroupModel.members GroupModel.set_members].
      apply filter_none. apply Forall_forall. intros m' Hin [Hrole Hact].
      apply list_elem_of_lookup in Hin. destruct Hin as [j Hj].
      destruct (decide (i = j)) as [<- | Hne].
      * rewrite list_lookup_insert_eq in Hj by (eapply lookup_lt_Some; exact Hi).
        injection Hj as <-. discriminate Hact.
      * rewrite list_lookup_insert_ne in Hj by exact Hne.
        apply Hne. apply (unique_entry _ i j m m' Hnd Hi Hj).
        rewrite Hu. symmetry. apply Honly. unfold GroupModel.admins.
        apply list_elem_of_filter. split; [split; assumption|].
        eapply list_elem_of_lookup_2. exact Hj.
    + apply filter_none. apply Forall_forall. intros m' Hin [Hrole Hact].
      apply (found_absent _ _ Hnone). rewrite <- (Honly m').
      * apply list_elem_of_In, List.in_map, list_elem_of_In. exact Hin.
      * unfold GroupModel.admins. apply list_elem_of_filter.
        split; [split; assumption | exact Hin].
Qed.

(** X24: [addMember] does not change the role of a user who has an entry
    already, whatever role is asked for: the entry stays where it is, active,
    with its old role; so a user removed and added again is back with the
    role held before. *)
Theorem addMember_keeps_role
    (now : Date) (userId : ObjectId) (r : GroupModel.Role) (this : GroupModel.t)
    (i : nat) (m : GroupModel.Member) :
  list_find (fun m => GroupModel.user m = userId) (GroupModel.members this)
    = Some (i, m) ->
  let added := fst (GroupModel.addMember now userId r this) in
  let back := fst (GroupModel.addMember now userId r
                     (fst (GroupModel.removeMember userId this))) in
  GroupModel.members added
    = (if GroupModel.isActive m then GroupModel.members this
       else <[i := GroupModel.mkMember userId (GroupModel.role m) now true]>
              (GroupModel.members this))
  /\ GroupModel.members back
     = <[i := GroupModel.mkMember userId (GroupModel.role m) now true]>
         (GroupModel.members this).
Proof.
  intros Hfind added back. subst added back.
  pose proof Hfind as Hspec. apply list_find_Some in Hspec.
  destruct Hspec as (Hi & Hu & _). split.
  - destruct (addMember_cases now userId r this)
      as [(j & m' & Hf & Hact & E) | [(j & m' & Hf & Hact & E) | (Hnone & E)]];
      rewrite E, fst_pre_save.
    + rewrite Hfind in Hf. injection Hf as <- <-. rewrite Hact. reflexivity.
    + rewrite Hfind in Hf. injection Hf as <- <-. rewrite Hact, Hu. reflexivity.
    + congruence.
  - destruct (removeMember_cases userId this)
      as [(j & m' & Hf & E) | (Hnone & _)]; [|congruence].
    rewrite Hfind in Hf. injection Hf as <- <-. rewrite E, fst_pre_save.
    set (gone := GroupModel.set_members _ this).
    assert (Hfind1 :
      list_find (fun m => GroupModel.user m = userId) (GroupModel.members gone)
      = Some (i, GroupModel.mkMember (GroupModel.user m) (GroupModel.role m)
                   (GroupModel.joinedAt m) false)).
    { subst gone. cbn [GroupModel.members GroupModel.set_members].
      apply (list_find_insert_same _ _ _ m); [exact Hfind | exact Hu]. }
    destruct (addMember_cases now userId r gone)
      as [(j & m' & Hf & Hact & _) | [(j & m' & Hf & _ & E') | (Hnone & _)]].
    + rewrite Hfind1 in Hf. injection Hf as <- <-. discriminate Hact.
    + rewrite Hfind1 in Hf. injection Hf as <- <-. rewrite E', fst_pre_save.
      subst gone. cbn [GroupModel.members GroupModel.set_members
                       GroupModel.user GroupModel.role].
      rewrite list_insert_insert_eq, Hu. reflexivity.
    + congruence.
Qed.

Lemma addMember_keeps_role_witness :
  GroupModel.members
    (fst (GroupModel.addMember 50 3 GroupModel.admin
            (GroupModel.mk
               [GroupModel.mkMember 1 GroupModel.admin 0 true;
                GroupModel.mkMember 2 GroupModel.member 0 true;
                GroupModel.mkMember 3 GroupModel.member 0 false] 1)))
  = [GroupModel.mkMember 1 GroupModel.admin 0 true;
     GroupModel.mkMember 2 GroupModel.member 0 true;
     GroupModel.mkMember 3 GroupModel.member 50 true].
Proof.
  assert (Hfind :
    list_find (fun m => GroupModel.user m = 3%nat)
      (GroupModel.members
         (GroupModel.mk
            [GroupModel.mkMember 1 GroupModel.admin 0 true;
             GroupModel.mkMember 2 GroupModel.member 0 true;
             GroupModel.mkMember 3 GroupModel.member 0 false] 1))
    = Some (2%nat, GroupModel.mkMember 3 GroupModel.member 0 false))
    by (vm_compute; reflexivity).
  exact (proj1 (addMember_keeps_role 50 3 GroupModel.admin _ 2 _ Hfind)).
Defined.

(** X25: the active members of a group are its admins and its regular
    members, each counted once; and an admin is a member. *)
Theorem admins_and_regular_members_partition
    (this : GroupModel.t) (userId : ObjectId) :
  GroupModel.activeMembersCount this
  = (length (GroupModel.admins this)
     + length (GroupModel.regularMembers this))%nat
  /\ (GroupModel.isAdmin this userId = true ->
        GroupModel.isMember this userId = true).
Proof.
  split.
  - unfold GroupModel.activeMembersCount, GroupModel.admins,
      GroupModel.regularMembers.
    induction (GroupModel.members this) as [|m ms IH]; [reflexivity|].
    rewrite !filter_cons.
    destruct (decide (GroupModel.isActive m = true)) as [Ha | Ha];
      destruct (decide (GroupModel.role m = GroupModel.admin
                        /\ GroupModel.isActive m = true)) as [[R1 A1] | N1];
      destruct (decide (GroupModel.role m = GroupModel.member
                        /\ GroupModel.isActive m = true)) as [[R2 A2] | N2];
      cbn [length]; try lia; try contradiction.
    + rewrite R1 in R2. discriminate R2.
    + exfalso. destruct (GroupModel.role m) eqn:Er;
        [apply N1 | apply N2]; split; assumption || reflexivity.
  - unfold GroupModel.isAdmin, GroupModel.isMember.
    rewrite !existsb_exists. intros (m & Hin & Hm). exists m.
    split; [exact Hin|].
    apply andb_true_iff in Hm. destruct Hm as [Hm Hact].
    apply andb_true_iff in Hm. destruct Hm as [Hu _].
    apply andb_true_iff. split; assumption.
Qed.
